(** * Kindle highlights to Markdown

    A shallow embedding of [highlights_parser.py]: the parsing of one
    clipping ([Highlight.parse_single_highlight]), the aggregation of a
    whole clippings text into books ([Parser.parse_highlights]) and the
    rendering of one highlight ([Formatting.format_highlight]).

    A Python [str] is modelled as a list of characters.  The script looks
    at characters only through equality with ASCII delimiters and through
    [str.strip], so one-byte characters (code points 0..255) are taken as
    the alphabet.  A Python call that can raise returns an [option] here,
    [None] standing for the exception. *)

From Stdlib Require Import String Ascii List ZArith Lia Bool Permutation.
Import ListNotations.

Set Implicit Arguments.

(** ** The Python primitives the script relies on *)

Module Py.

Definition str := list ascii.

(** A Python string literal. *)
Definition lit (s : string) : str := list_ascii_of_string s.
Arguments lit s%_string.

(** The newline character, written "\n" in the source. *)
Definition NL : ascii := "010"%char.

(** Truth value of a [str]: only the empty string is falsy. *)
Definition truthy (s : str) : bool :=
  match s with
  | [] => false
  | _ :: _ => true
  end.

Definition str_eq_dec : forall a b : str, {a = b} + {a <> b} :=
  list_eq_dec ascii_dec.

(** [s.startswith(p)]. *)
Fixpoint startswith (p s : str) : bool :=
  match p, s with
  | [], _ => true
  | _ :: _, [] => false
  | a :: p', b :: s' => Ascii.eqb a b && startswith p' s'
  end.

(** [s.split(sep)] for a non-empty [sep]: scan from the left, cut at each
    occurrence of [sep] and resume after it.  [skip] counts the characters
    of a separator just recognised that are still to be passed over. *)
Fixpoint split_from (sep : str) (skip : nat) (s : str) : list str :=
  match s with
  | [] => [[]]
  | c :: t =>
      match skip with
      | S k => split_from sep k t
      | O =>
          if startswith sep s
          then [] :: split_from sep (length sep - 1) t
          else match split_from sep 0 t with
               | [] => [[c]]
               | h :: r => (c :: h) :: r
               end
      end
  end.

Definition str_split (sep s : str) : list str := split_from sep 0 s.

(** [sep.join(l)]. *)
Fixpoint str_join (sep : str) (l : list str) : str :=
  match l with
  | [] => []
  | [x] => x
  | x :: r => x ++ sep ++ str_join sep r
  end.

(** [s.replace(old, new)] for a non-empty [old]: every occurrence found
    scanning from the left gives way to [new]. *)
Definition str_replace (old new s : str) : str :=
  str_join new (str_split old s).

(** [s.find(sub)]: index of the leftmost occurrence, or -1. *)
Fixpoint find_from (sub s : str) (i : Z) : Z :=
  if startswith sub s then i
  else match s with
       | [] => (-1)%Z
       | _ :: t => find_from sub t (i + 1)%Z
       end.

Definition str_find (sub s : str) : Z := find_from sub s 0%Z.

(** Position of the leftmost occurrence of [sub] as a natural number, if
    there is one. *)
Fixpoint first_occ (sub s : str) : option nat :=
  if startswith sub s then Some 0
  else match s with
       | [] => None
       | _ :: t => option_map S (first_occ sub t)
       end.

(** [c.isspace()] on the one-byte characters. *)
Definition isspace (c : ascii) : bool :=
  let n := N_of_ascii c in
  ((9 <=? n) && (n <=? 13) || (28 <=? n) && (n <=? 32)
   || (n =? 133) || (n =? 160))%N.

Fixpoint lstrip (s : str) : str :=
  match s with
  | [] => []
  | c :: t => if isspace c then lstrip t else s
  end.

Definition rstrip (s : str) : str := rev (lstrip (rev s)).

(** [s.strip()]. *)
Definition strip (s : str) : str := rstrip (lstrip s).

(** [l[i]]: a negative index counts from the end; out of range raises
    IndexError. *)
Definition py_index {A : Type} (l : list A) (i : Z) : option A :=
  let n := Z.of_nat (length l) in
  let j := if (i <? 0)%Z then (i + n)%Z else i in
  if ((0 <=? j) && (j <? n))%Z then nth_error l (Z.to_nat j) else None.

(** A slice bound brought into [0, len]. *)
Definition clamp (n : Z) (i : Z) : Z :=
  if (i <? 0)%Z then Z.max (i + n) 0 else Z.min i n.

(** [l[lo:hi]], either bound possibly omitted.  Slicing never raises. *)
Definition py_slice {A : Type} (l : list A) (lo hi : option Z) : list A :=
  let n := Z.of_nat (length l) in
  let a := match lo with Some i => clamp n i | None => 0%Z end in
  let b := match hi with Some i => clamp n i | None => n end in
  firstn (Z.to_nat b - Z.to_nat a) (skipn (Z.to_nat a) l).

(** The one regular expression of the script, [\((.*?)\)]. *)
Record Match : Type := mkMatch { start : nat; group1 : str }.

(** [(.*?)\)] at the current position: take as few characters as possible,
    none of them a newline, up to a closing parenthesis. *)
Fixpoint lazy_until_rparen (s : str) : option str :=
  match s with
  | [] => None
  | c :: t =>
      if Ascii.eqb c ")" then Some []
      else if Ascii.eqb c NL then None
      else option_map (cons c) (lazy_until_rparen t)
  end.

(** The pattern anchored at the head of [s]. *)
Definition match_here (s : str) : option str :=
  match s with
  | [] => None
  | c :: t => if Ascii.eqb c "(" then lazy_until_rparen t else None
  end.

(** [re.search(regex, s)]: the match at the leftmost position that has
    one. *)
Fixpoint re_search (s : str) : option Match :=
  match match_here s with
  | Some g => Some (mkMatch 0 g)
  | None =>
      match s with
      | [] => None
      | _ :: t =>
          option_map (fun m => mkMatch (S (start m)) (group1 m)) (re_search t)
      end
  end.

End Py.

Import Py.

Notation "x <- e ;; k" :=
  (match e with Some x => k | None => None end)
  (at level 61, e at next level, right associativity).

(** ** The script *)

(** The separator between highlights in the clippings file. *)
Definition HIGHLIGHT_SEPARATOR : str := lit "==========".

(** The tuple [parse_single_highlight] returns, in the order of its
    [return] statement: title, author, content, page, date. *)
Definition Fields : Type := (str * str * str * str * str)%type.

Definition no_fields : Fields := ([], [], [], [], []).

Definition parse_single_highlight (highlight_string : str) : option Fields :=
  let split_string := filter truthy (str_split [NL] highlight_string) in
  if negb (length split_string =? 3) then Some no_fields
  else
    author_line <- py_index split_string 0 ;;
    content <- py_index split_string (-1) ;;
    meta_line <- py_index split_string (-2) ;;
    let details := str_split (lit "|") meta_line in
    match re_search author_line with
    | None => Some no_fields
    | Some m =>
        let author := group1 m in
        let title := py_slice author_line None (Some (Z.of_nat (start m))) in
        last_segment <- py_index details (-1) ;;
        let date := py_slice last_segment (Some 10%Z) None in
        first_segment <- py_index details 0 ;;
        let page_idx := str_find (lit "page") (strip first_segment) in
        let page :=
          lit "P" ++ py_slice first_segment (Some (page_idx + 1)%Z) (Some (-1)%Z) in
        Some (title, author, content, page, date)
    end.

(** An object of class [Highlight].  The constructor unpacks the tuple of
    [parse_single_highlight] positionally into title, author, content, date,
    page: the fourth component lands in [date] and the fifth in [page]. *)
Record Highlight : Type := mkHighlight {
  title : str;
  author : str;
  content : str;
  date : str;
  page : str
}.

Definition Highlight_init (raw_string : str) : option Highlight :=
  fields <- parse_single_highlight raw_string ;;
  let '(f1, f2, f3, f4, f5) := fields in
  Some (mkHighlight f1 f2 f3 f4 f5).

Inductive Formatting : Type := BULLET | QUOTE | PARAGRAPH.

Definition format_highlight
    (self : Formatting) (highlight : Highlight) (add_date add_page : bool) : str :=
  let formatted_text := str_replace [NL] (lit " ") (content highlight) in
  let formatted_text :=
    match self with
    | QUOTE => lit "- " ++ formatted_text
    | BULLET => lit "> " ++ formatted_text
    | PARAGRAPH => formatted_text
    end in
  let formatted_text :=
    if add_date && add_page then
      formatted_text ++ lit " (Added on " ++ date highlight ++ lit ", "
        ++ page highlight ++ lit ")"
    else if add_date && negb add_page then
      formatted_text ++ lit " (Added on " ++ date highlight ++ lit ")"
    else if negb add_date && add_page then
      formatted_text ++ lit " (" ++ page highlight ++ lit ")"
    else formatted_text in
  formatted_text ++ [NL].

(** [self.books]: a dict from (author, title) to the list of highlights; a
    Python dict keeps its keys in insertion order, so it is an association
    list here, each key occurring once. *)
Definition BookKey : Type := (str * str)%type.
Definition Books : Type := list (BookKey * list Highlight).

Definition key_eq_dec : forall a b : BookKey, {a = b} + {a <> b}.
Proof. decide equality; apply str_eq_dec. Defined.

(** [books[k].append(h)] on a [defaultdict(list)]: a missing key is entered
    at the end with an empty list before the append. *)
Fixpoint books_append (books : Books) (k : BookKey) (h : Highlight) : Books :=
  match books with
  | [] => [(k, [h])]
  | (k', hs) :: rest =>
      if key_eq_dec k k' then (k', hs ++ [h]) :: rest
      else (k', hs) :: books_append rest k h
  end.

(** The body of the loop of [parse_highlights]. *)
Definition add_raw (books : Books) (raw_string : str) : option Books :=
  h <- Highlight_init raw_string ;;
  if truthy (title h) && truthy (author h)
  then Some (books_append books (author h, title h) h)
  else Some books.

Fixpoint add_all (books : Books) (highlights : list str) : option Books :=
  match highlights with
  | [] => Some books
  | raw_string :: rest => books' <- add_raw books raw_string ;; add_all books' rest
  end.

(** [Parser.parse_highlights], from the text of the file on. *)
Definition parse_highlights (data : str) : option Books :=
  add_all [] (str_split HIGHLIGHT_SEPARATOR data).

(** ** Notions used to state the properties *)

(** The lines [parse_single_highlight] works on ([split_string]). *)
Definition nonempty_lines (raw : str) : list str :=
  filter truthy (str_split [NL] raw).

(** A line with a parenthesized group: an opening parenthesis with a closing
    one somewhere after it. *)
Definition has_group (s : str) : Prop :=
  exists pre g post, s = pre ++ "("%char :: g ++ ")"%char :: post.

(** The segments of the metadata line. *)
Definition segments (meta_line : str) : list str := str_split (lit "|") meta_line.

(** The chunks the text is cut into, one per pass of the loop. *)
Definition chunks (data : str) : list str := str_split HIGHLIGHT_SEPARATOR data.

(** The [Highlight] objects of a list of chunks, in the order of the chunks. *)
Definition records_of (highlights : list str) : list Highlight :=
  flat_map (fun raw => match Highlight_init raw with
                       | Some h => [h]
                       | None => []
                       end) highlights.

(** The test of the loop, [h.title and h.author]. *)
Definition valid (h : Highlight) : bool := truthy (title h) && truthy (author h).

(** The dict key of a highlight. *)
Definition key (h : Highlight) : BookKey := (author h, title h).

Definition same_key (k : BookKey) (h : Highlight) : bool :=
  if key_eq_dec (key h) k then true else false.

(** The valid records of a text, in the order of their chunks. *)
Definition valid_records (data : str) : list Highlight :=
  filter valid (records_of (chunks data)).

(** The elements of a list in the order of their first occurrence. *)
Fixpoint first_seen (ks : list BookKey) : list BookKey :=
  match ks with
  | [] => []
  | k :: rest =>
      k :: filter (fun k' => if key_eq_dec k k' then false else true)
             (first_seen rest)
  end.

(** Grouping by key: keys by first occurrence, each with the sublist of the
    highlights that carry it. *)
Definition grouped (hs : list Highlight) : Books :=
  map (fun k => (k, filter (same_key k) hs)) (first_seen (map key hs)).

(** ** Concrete chunks *)

(** A chunk given by its lines. *)
Definition of_lines (ls : list str) : str := str_join [NL] ls.

Definition sample_chunk : str :=
  of_lines
    [lit "Sample Book (Jane Doe)";
     lit "- Your Highlight on page 12 | Added on Monday, May 1, 2023 10:00:00 AM";
     lit "This is the highlighted text."].

(** A header with two parenthesized groups. *)
Definition two_groups_chunk : str :=
  of_lines
    [lit "My Book (Vol 1) (Jane Doe)";
     lit "- Your Highlight on page 3 | Added on Monday, May 1, 2023 10:00:00 AM";
     lit "text"].

(** A metadata line that gives a location and no page. *)
Definition location_chunk : str :=
  of_lines
    [lit "Book (Ann)";
     lit "- Your Highlight on Location 100-102 | Added on Monday";
     lit "Some text"].

(** Four lines, and three lines of which the header has no group. *)
Definition four_lines_chunk : str :=
  of_lines [lit "Book (Ann)"; lit "- page 3 | Added on Monday"; lit "one"; lit "two"].

Definition no_group_chunk : str :=
  of_lines [lit "Book by Ann"; lit "- page 3 | Added on Monday"; lit "text"].

(** A header that starts with its group: the title is empty. *)
Definition untitled_chunk : str :=
  of_lines [lit "(Jane Doe)"; lit "- Your Highlight on page 3 | Added on Monday";
            lit "text"].

Definition sample_fields : Fields :=
  (lit "Sample Book ", lit "Jane Doe", lit "This is the highlighted text.",
   lit "Page 12", lit "Monday, May 1, 2023 10:00:00 AM").

Definition sample_highlight : Highlight :=
  mkHighlight (lit "Sample Book ") (lit "Jane Doe")
    (lit "This is the highlighted text.") (lit "Page 12")
    (lit "Monday, May 1, 2023 10:00:00 AM").

(** Three lines, and the same with a line of three spaces in between. *)
Definition three_lines : list str :=
  [lit "Book (Ann)"; lit "- Your Highlight on page 3 | Added on Monday"; lit "text"].

Definition blank_line_lines : list str :=
  [lit "Book (Ann)"; lit "   "; lit "- Your Highlight on page 3 | Added on Monday";
   lit "text"].

(** The three lines with empty lines around and between them. *)
Definition empty_line_lines : list str :=
  [[]; lit "Book (Ann)"; []; lit "- Your Highlight on page 3 | Added on Monday";
   []; lit "text"; []].

(** The last segment of the metadata line is shorter than the label
    "Added on". *)
Definition short_date_chunk : str :=
  of_lines [lit "Book (Ann)"; lit "- Your Highlight on page 3 | short"; lit "text"].

Definition short_date_untitled_chunk : str :=
  of_lines [lit "(Jane Doe)"; lit "- Your Highlight on page 3 | short"; lit "text"].

(** Two highlights of one book, as they stand in a clippings file. *)
Definition same_book_text : str :=
  of_lines
    [lit "Sample Book (Jane Doe)";
     lit "- Your Highlight on page 12 | Added on Monday"; lit "first";
     HIGHLIGHT_SEPARATOR;
     lit "Sample Book (Jane Doe)";
     lit "- Your Highlight on page 13 | Added on Tuesday"; lit "second";
     HIGHLIGHT_SEPARATOR].

Definition first_highlight : Highlight :=
  mkHighlight (lit "Sample Book ") (lit "Jane Doe") (lit "first")
    (lit "Page 12") (lit "Monday").

Definition second_highlight : Highlight :=
  mkHighlight (lit "Sample Book ") (lit "Jane Doe") (lit "second")
    (lit "Page 13") (lit "Tuesday").

(** Two highlights whose headers differ by one space before the group. *)
Definition spaced_titles_text : str :=
  of_lines
    [lit "Book (A)"; lit "- Your Highlight on page 1 | Added on Monday"; lit "x";
     HIGHLIGHT_SEPARATOR;
     lit "Book  (A)"; lit "- Your Highlight on page 2 | Added on Tuesday"; lit "y";
     HIGHLIGHT_SEPARATOR].

Definition spaced_highlight_1 : Highlight :=
  mkHighlight (lit "Book ") (lit "A") (lit "x") (lit "Page 1") (lit "Monday").

Definition spaced_highlight_2 : Highlight :=
  mkHighlight (lit "Book  ") (lit "A") (lit "y") (lit "Page 2") (lit "Tuesday").

(** One line with ten equal signs in its middle. *)
Definition embedded_separator_text : str := lit "ab==========cd".

(** ** The splitting of the text as the specification words it *)

(** The lines of the text are gathered into chunks that end at each line
    consisting of exactly ten equal signs. *)
Fixpoint split_at_lines (ls : list str) : list (list str) :=
  match ls with
  | [] => [[]]
  | l :: rest =>
      if str_eq_dec l HIGHLIGHT_SEPARATOR then [] :: split_at_lines rest
      else match split_at_lines rest with
           | [] => [[l]]
           | chunk :: others => (l :: chunk) :: others
           end
  end.

Definition chunks_at_separator_lines (data : str) : list str :=
  map of_lines (split_at_lines (str_split [NL] data)).

(** ** Writing the books

    What [Parser.write_highlights] computes before it touches the file
    system: the cleaned title and author, the path of the file of a book and
    the text written to it. *)

(** [c.isalpha()] and [c.isdigit()] on the one-byte characters: the letters
    of ASCII and Latin-1, the decimal digits and the superscripts 1, 2, 3. *)
Definition isalpha (c : ascii) : bool :=
  let n := N_of_ascii c in
  ((65 <=? n) && (n <=? 90) || (97 <=? n) && (n <=? 122)
   || (n =? 170) || (n =? 181) || (n =? 186)
   || (192 <=? n) && (n <=? 214) || (216 <=? n) && (n <=? 246)
   || (248 <=? n) && (n <=? 255))%N.

Definition isdigit (c : ascii) : bool :=
  let n := N_of_ascii c in
  ((48 <=? n) && (n <=? 57) || (n =? 178) || (n =? 179) || (n =? 185))%N.

(** The character filter of [clean_title] and [clean_author]. *)
Definition keeps (c : ascii) : bool :=
  isalpha c || isdigit c || Ascii.eqb c " ".

(** ["".join([c for c in s if ...]).rstrip()]. *)
Definition clean_name (s : str) : str := rstrip (filter keeps s).

(** [f"{save_path}{clean_author}_{clean_title}.md"]. *)
Definition md_path (save_path clean_author clean_title : str) : str :=
  save_path ++ clean_author ++ lit "_" ++ clean_title ++ lit ".md".

(** Everything written to the file of one book. *)
Definition book_text (clean_title clean_author : str) (highlights : list Highlight)
    (formatting : Formatting) (add_date add_page : bool) : str :=
  (lit "# " ++ clean_title ++ [NL])
  ++ [NL]
  ++ (lit "Author: " ++ clean_author ++ [NL])
  ++ [NL]
  ++ concat (map (fun h => format_highlight formatting h add_date add_page)
               highlights).

(** The text of the file of one item of the books. *)
Definition item_text (formatting : Formatting) (add_date add_page : bool)
    (item : BookKey * list Highlight) : str :=
  book_text (clean_name (snd (fst item))) (clean_name (fst (fst item)))
    (snd item) formatting add_date add_page.

(** ** The enumeration of the formats

    [Formatting.__str__] gives the value of the member; [Formatting(value)],
    which the command line applies to its argument, finds the member by its
    value and raises ValueError when there is none. *)
Definition Formatting_str (self : Formatting) : str :=
  match self with
  | BULLET => lit "bullet"
  | QUOTE => lit "quote"
  | PARAGRAPH => lit "paragraph"
  end.

Definition Formatting_of_value (value : str) : option Formatting :=
  if str_eq_dec value (lit "bullet") then Some BULLET
  else if str_eq_dec value (lit "quote") then Some QUOTE
  else if str_eq_dec value (lit "paragraph") then Some PARAGRAPH
  else None.

(** [Parser.parse_highlights] on a parser that already holds [books]. *)
Definition parse_highlights_into (books : Books) (data : str) : option Books :=
  add_all books (str_split HIGHLIGHT_SEPARATOR data).

(** The prefix of a style and the suffix chosen by the two flags. *)
Definition prefix_of (self : Formatting) : str :=
  match self with
  | BULLET => lit "> "
  | QUOTE => lit "- "
  | PARAGRAPH => []
  end.

Definition suffix_of (h : Highlight) (add_date add_page : bool) : str :=
  match add_date, add_page with
  | true, true => lit " (Added on " ++ date h ++ lit ", " ++ page h ++ lit ")"
  | true, false => lit " (Added on " ++ date h ++ lit ")"
  | false, true => lit " (" ++ page h ++ lit ")"
  | false, false => []
  end.

(** The number of newlines of a text. *)
Definition count_NL (s : str) : nat := length (filter (Ascii.eqb NL) s).

(** ** Facts about the primitives *)

Section SplitFacts.

Variable sep : str.
Hypothesis sep_nonempty : sep <> [].

Lemma startswith_app (p s : str) : startswith p (p ++ s) = true.
Proof.
  induction p as [|a p IH]; simpl; [reflexivity|].
  now rewrite Ascii.eqb_refl, IH.
Qed.

Lemma startswith_inv (p s : str) :
  startswith p s = true -> s = p ++ skipn (length p) s.
Proof.
  revert s; induction p as [|a p IH]; intros [|b s] H; simpl in *;
    try reflexivity; try discriminate.
  apply andb_true_iff in H as [Hab Hps].
  apply Ascii.eqb_eq in Hab; subst b.
  f_equal; now apply IH.
Qed.

Lemma startswith_nil_false : startswith sep [] = false.
Proof using sep_nonempty. destruct sep; [contradiction|reflexivity]. Qed.

Lemma split_from_skip (k : nat) (s : str) :
  split_from sep k s = split_from sep 0 (skipn k s).
Proof.
  revert k; induction s as [|c t IH]; intros [|k]; try reflexivity.
  simpl split_from at 1. now rewrite IH.
Qed.

Lemma split_from_not_nil (k : nat) (s : str) : split_from sep k s <> [].
Proof.
  revert k; induction s as [|c t IH]; intros k; simpl; [discriminate|].
  destruct k as [|k]; [|apply IH].
  destruct (startswith sep (c :: t)); [discriminate|].
  destruct (split_from sep 0 t); discriminate.
Qed.

Lemma str_split_nil : str_split sep [] = [[]].
Proof. reflexivity. Qed.

(** The separator at the head of the text closes an empty chunk. *)
Lemma str_split_hit (b : str) : str_split sep (sep ++ b) = [] :: str_split sep b.
Proof using sep_nonempty.
  unfold str_split.
  destruct (sep ++ b) as [|c t] eqn:E.
  - apply app_eq_nil in E as [E _]; contradiction.
  - cbn [split_from].
    replace (startswith sep (c :: t)) with true
      by (now rewrite <- E, startswith_app).
    rewrite split_from_skip.
    replace t with (skipn 1 (sep ++ b)) by now rewrite E.
    rewrite skipn_skipn.
    replace (length sep - 1 + 1) with (length sep)
      by (destruct sep; [contradiction|simpl; lia]).
    now rewrite skipn_app, skipn_all, Nat.sub_diag.
Qed.

(** A character that does not start a separator joins the first chunk of
    what follows. *)
Lemma str_split_miss (c : ascii) (t : str) :
  startswith sep (c :: t) = false ->
  exists h r, str_split sep t = h :: r /\ str_split sep (c :: t) = (c :: h) :: r.
Proof.
  intros H. unfold str_split. simpl split_from at 2. rewrite H.
  destruct (split_from sep 0 t) as [|h r] eqn:E.
  - now apply split_from_not_nil in E.
  - now exists h, r.
Qed.

Lemma str_join_cons_head (c : ascii) (h : str) (r : list str) :
  str_join sep ((c :: h) :: r) = c :: str_join sep (h :: r).
Proof. destruct r; reflexivity. Qed.

(** Joining the chunks with the separator gives the text back. *)
Lemma str_join_split (s : str) : str_join sep (str_split sep s) = s.
Proof using sep_nonempty.
  induction s as [s IH] using (induction_ltof1 _ (@length ascii)).
  unfold ltof in IH.
  destruct s as [|c t]; [reflexivity|].
  destruct (startswith sep (c :: t)) eqn:H.
  - apply startswith_inv in H. rewrite H at 1. rewrite str_split_hit.
    destruct (str_split sep (skipn (length sep) (c :: t))) as [|x r] eqn:E.
    + now apply split_from_not_nil in E.
    + change (str_join sep ([] :: x :: r)) with (sep ++ str_join sep (x :: r)).
      rewrite <- E, IH; [now rewrite <- H|].
      rewrite length_skipn. destruct sep; [contradiction|simpl; lia].
  - destruct (str_split_miss _ _ H) as (h & r & Et & Ect).
    rewrite Ect, str_join_cons_head, <- Et, IH; [reflexivity|simpl; lia].
Qed.

Lemma find_from_first_occ (s : str) (i : Z) :
  find_from sep s i =
  match first_occ sep s with
  | Some n => (i + Z.of_nat n)%Z
  | None => (-1)%Z
  end.
Proof.
  revert i; induction s as [|c t IH]; intros i; simpl.
  - destruct (startswith sep []); [lia|reflexivity].
  - destruct (startswith sep (c :: t)); [lia|].
    rewrite IH. destruct (first_occ sep t); simpl; lia.
Qed.

(** [first_occ] finds an occurrence, and no earlier position has one. *)
Lemma first_occ_leftmost (s : str) (n : nat) :
  first_occ sep s = Some n ->
  startswith sep (skipn n s) = true
  /\ forall m, m < n -> startswith sep (skipn m s) = false.
Proof.
  revert n; induction s as [|c t IH]; intros n H; simpl in H.
  - destruct (startswith sep []) eqn:E; [|discriminate].
    injection H as <-. split; [exact E|intros m Hm; lia].
  - destruct (startswith sep (c :: t)) eqn:E.
    + injection H as <-. split; [exact E|intros m Hm; lia].
    + destruct (first_occ sep t) as [n'|]; [|discriminate].
      injection H as <-. destruct (IH n' eq_refl) as [Hn Hm].
      split; [exact Hn|].
      intros [|m] Hlt; [exact E|]. apply Hm. lia.
Qed.

(** [split] cuts at the leftmost occurrence and goes on after it. *)
Lemma str_split_first_occ (s : str) :
  str_split sep s =
  match first_occ sep s with
  | None => [s]
  | Some n => firstn n s :: str_split sep (skipn (n + length sep) s)
  end.
Proof using sep_nonempty.
  induction s as [|c t IH].
  - simpl. now rewrite startswith_nil_false.
  - simpl first_occ. destruct (startswith sep (c :: t)) eqn:H.
    + apply startswith_inv in H. rewrite H at 1.
      now rewrite str_split_hit.
    + destruct (str_split_miss _ _ H) as (h & r & Et & Ect).
      rewrite Ect. rewrite Et in IH.
      destruct (first_occ sep t) as [n|]; simpl; now inversion IH.
Qed.

End SplitFacts.

(** Splitting on a single character, as done for lines and for the
    segments of the metadata line. *)
Section CharSplit.

Variable c : ascii.

Lemma startswith_char (s : str) :
  startswith [c] s = match s with [] => false | x :: _ => Ascii.eqb c x end.
Proof. destruct s; simpl; [reflexivity|apply andb_true_r]. Qed.

Lemma str_split_char_cons (x : ascii) (t : str) :
  str_split [c] (x :: t) =
  if Ascii.eqb c x then [] :: str_split [c] t
  else match str_split [c] t with
       | [] => [[x]]
       | h :: r => (x :: h) :: r
       end.
Proof.
  unfold str_split. cbn [split_from]. rewrite startswith_char.
  reflexivity.
Qed.

(** No chunk contains the separating character. *)
Lemma str_split_char_free (s : str) :
  Forall (fun l => ~ In c l) (str_split [c] s).
Proof.
  induction s as [|x t IH].
  - constructor; [intros []|constructor].
  - rewrite str_split_char_cons.
    destruct (Ascii.eqb_spec c x) as [->|Hne].
    + constructor; [intros []|exact IH].
    + destruct (str_split [c] t) as [|h r].
      * constructor; [|constructor]. intros [E|[]]; congruence.
      * inversion IH; subst. constructor; [|assumption].
        intros [E|Hin]; [congruence|contradiction].
Qed.

Lemma str_split_char_notin (s : str) : ~ In c s -> str_split [c] s = [s].
Proof.
  induction s as [|x t IH]; intros H; [reflexivity|].
  rewrite str_split_char_cons.
  destruct (Ascii.eqb_spec c x) as [->|Hne].
  - exfalso; apply H; now left.
  - rewrite IH; [reflexivity|]. intros Hin; apply H; now right.
Qed.

Lemma str_split_char_app (a b : str) :
  ~ In c a -> str_split [c] (a ++ c :: b) = a :: str_split [c] b.
Proof.
  induction a as [|x a IH]; intros H; simpl app.
  - rewrite str_split_char_cons. now rewrite Ascii.eqb_refl.
  - rewrite str_split_char_cons.
    destruct (Ascii.eqb_spec c x) as [->|Hne].
    + exfalso; apply H; now left.
    + rewrite IH; [reflexivity|]. intros Hin; apply H; now right.
Qed.

(** Splitting undoes joining when no piece contains the character. *)
Lemma str_split_join_char (ls : list str) :
  ls <> [] -> Forall (fun l => ~ In c l) ls ->
  str_split [c] (str_join [c] ls) = ls.
Proof.
  induction ls as [|x r IH]; intros Hne Hall; [contradiction|].
  inversion Hall as [|? ? Hx Hr]; subst.
  destruct r as [|y r].
  - simpl. now apply str_split_char_notin.
  - change (str_join [c] (x :: y :: r)) with (x ++ c :: str_join [c] (y :: r)).
    rewrite str_split_char_app by assumption.
    f_equal. apply IH; [discriminate|assumption].
Qed.

End CharSplit.

(** Indexing and slicing as the script uses them. *)
Section IndexFacts.

Variable A : Type.

Lemma py_index_first (x : A) (l : list A) : py_index (x :: l) 0 = Some x.
Proof.
  unfold py_index. change (0 <? 0)%Z with false. cbv iota.
  destruct (Z.leb_spec 0 0); [|lia].
  destruct (Z.ltb_spec 0 (Z.of_nat (length (x :: l))));
    [reflexivity|simpl length in *; lia].
Qed.

Lemma nth_error_last (l : list A) (d : A) :
  l <> [] -> nth_error l (pred (length l)) = Some (last l d).
Proof.
  induction l as [|x l IH]; intros H; [contradiction|].
  destruct l as [|y l]; [reflexivity|].
  specialize (IH ltac:(discriminate)). exact IH.
Qed.

Lemma py_index_last (l : list A) (d : A) :
  l <> [] -> py_index l (-1) = Some (last l d).
Proof.
  intros H. unfold py_index. change (-1 <? 0)%Z with true. cbv iota.
  assert (Hlen : (1 <= Z.of_nat (length l))%Z)
    by (destruct l; [contradiction|simpl length; lia]).
  destruct (Z.leb_spec 0 (-1 + Z.of_nat (length l))); [|lia].
  destruct (Z.ltb_spec (-1 + Z.of_nat (length l)) (Z.of_nat (length l)));
    [|lia].
  simpl andb. cbv iota.
  replace (Z.to_nat (-1 + Z.of_nat (length l))) with (pred (length l)) by lia.
  now apply nth_error_last.
Qed.

(** [l[:n]]. *)
Lemma py_slice_upto (l : list A) (n : nat) :
  py_slice l None (Some (Z.of_nat n)) = firstn n l.
Proof.
  unfold py_slice, clamp.
  replace (Z.of_nat n <? 0)%Z with false by (symmetry; apply Z.ltb_ge; lia).
  simpl skipn. rewrite Nat.sub_0_r.
  destruct (Z.min_spec (Z.of_nat n) (Z.of_nat (length l))) as [[H E]|[H E]];
    rewrite E.
  - now rewrite Nat2Z.id.
  - rewrite Nat2Z.id, !firstn_all2; [reflexivity|lia|lia].
Qed.

(** [l[n:]]. *)
Lemma py_slice_from (l : list A) (n : nat) :
  py_slice l (Some (Z.of_nat n)) None = skipn n l.
Proof.
  unfold py_slice, clamp.
  replace (Z.of_nat n <? 0)%Z with false by (symmetry; apply Z.ltb_ge; lia).
  rewrite Nat2Z.id.
  destruct (Z.min_spec (Z.of_nat n) (Z.of_nat (length l))) as [[H E]|[H E]];
    rewrite E, Nat2Z.id.
  - apply firstn_all2. rewrite length_skipn. lia.
  - rewrite skipn_all, Nat.sub_diag. simpl.
    symmetry; apply skipn_all2; lia.
Qed.

(** [l[0:-1]]: everything but the last element. *)
Lemma py_slice_but_last (l : list A) :
  py_slice l (Some 0%Z) (Some (-1)%Z) = removelast l.
Proof.
  unfold py_slice, clamp.
  change (0 <? 0)%Z with false. change (-1 <? 0)%Z with true. cbv iota.
  rewrite Z.min_l by lia. change (Z.to_nat 0) with 0.
  simpl skipn. rewrite Nat.sub_0_r.
  rewrite removelast_firstn_len. f_equal. lia.
Qed.

End IndexFacts.

(** The regular expression: which match [re.search] returns. *)
Section RegexFacts.

Lemma re_search_cons (c : ascii) (t : str) :
  re_search (c :: t) =
  match match_here (c :: t) with
  | Some g => Some (mkMatch 0 g)
  | None => option_map (fun m => mkMatch (S (start m)) (group1 m)) (re_search t)
  end.
Proof. reflexivity. Qed.

Lemma lazy_until_rparen_app (g post : str) :
  ~ In ")"%char g -> ~ In NL g ->
  lazy_until_rparen (g ++ ")"%char :: post) = Some g.
Proof.
  induction g as [|c g IH]; intros Hr Hn; [reflexivity|].
  simpl.
  destruct (Ascii.eqb_spec c ")") as [->|_]; [exfalso; apply Hr; now left|].
  destruct (Ascii.eqb_spec c NL) as [->|_]; [exfalso; apply Hn; now left|].
  rewrite IH; [reflexivity| |]; intros Hin; [apply Hr|apply Hn]; now right.
Qed.

Lemma lazy_until_rparen_sound (s g : str) :
  lazy_until_rparen s = Some g ->
  exists post, s = g ++ ")"%char :: post /\ ~ In ")"%char g /\ ~ In NL g.
Proof.
  revert g; induction s as [|c t IH]; intros g H; [discriminate|].
  simpl in H.
  destruct (Ascii.eqb_spec c ")") as [->|Hr].
  - injection H as <-. exists t. repeat split; intros [].
  - destruct (Ascii.eqb_spec c NL) as [->|Hn]; [discriminate|].
    destruct (lazy_until_rparen t) as [g'|]; [|discriminate].
    injection H as <-.
    destruct (IH g' eq_refl) as (post & -> & Hr' & Hn').
    exists post. repeat split; intros [E|Hin]; congruence || contradiction.
Qed.

Lemma lazy_until_rparen_complete (g post : str) :
  ~ In NL g -> lazy_until_rparen (g ++ ")"%char :: post) <> None.
Proof.
  induction g as [|c g IH]; intros Hn; [discriminate|].
  simpl.
  destruct (Ascii.eqb_spec c ")"); [discriminate|].
  destruct (Ascii.eqb_spec c NL) as [->|_]; [exfalso; apply Hn; now left|].
  destruct (lazy_until_rparen (g ++ ")"%char :: post)) eqn:E; [discriminate|].
  exfalso; apply IH; [|reflexivity]. intros Hin; apply Hn; now right.
Qed.

(** The match found is a group of the line; its text has no closing
    parenthesis. *)
Lemma re_search_sound (s : str) (m : Match) :
  re_search s = Some m ->
  exists post,
    s = firstn (start m) s ++ "("%char :: group1 m ++ ")"%char :: post
    /\ length (firstn (start m) s) = start m
    /\ ~ In ")"%char (group1 m) /\ ~ In NL (group1 m).
Proof.
  revert m; induction s as [|c t IH]; intros m H; [discriminate|].
  rewrite re_search_cons in H.
  destruct (match_here (c :: t)) as [g|] eqn:E.
  - injection H as <-. simpl in E.
    destruct (Ascii.eqb_spec c "(") as [->|_]; [|discriminate].
    destruct (lazy_until_rparen_sound _ E) as (post & -> & Hr & Hn).
    exists post. now repeat split.
  - destruct (re_search t) as [m'|]; [|discriminate].
    injection H as <-. simpl.
    destruct (IH m' eq_refl) as (post & Hs & Hl & Hr & Hn).
    exists post. repeat split; try assumption.
    + now rewrite <- Hs.
    + now rewrite Hl.
Qed.

(** The leftmost opening parenthesis that is closed starts the match. *)
Lemma re_search_leftmost (pre g post : str) :
  ~ In "("%char pre -> ~ In ")"%char g -> ~ In NL g ->
  re_search (pre ++ "("%char :: g ++ ")"%char :: post)
  = Some (mkMatch (length pre) g).
Proof.
  intros Hp Hr Hn. induction pre as [|c pre IH].
  - simpl app. rewrite re_search_cons. simpl match_here.
    now rewrite lazy_until_rparen_app.
  - simpl app. rewrite re_search_cons. simpl match_here.
    destruct (Ascii.eqb_spec c "(") as [->|_]; [exfalso; apply Hp; now left|].
    rewrite IH; [reflexivity|]. intros Hin; apply Hp; now right.
Qed.

Lemma re_search_complete (pre g post : str) :
  ~ In NL g -> re_search (pre ++ "("%char :: g ++ ")"%char :: post) <> None.
Proof.
  intros Hn. induction pre as [|c pre IH].
  - simpl app. rewrite re_search_cons. simpl match_here.
    destruct (lazy_until_rparen (g ++ ")"%char :: post)) eqn:E; [discriminate|].
    now apply lazy_until_rparen_complete in E.
  - simpl app. rewrite re_search_cons.
    destruct (match_here _); [discriminate|].
    destruct (re_search (pre ++ "("%char :: g ++ ")"%char :: post));
      [discriminate|contradiction].
Qed.

(** On a line, the search fails exactly when there is no group. *)
Lemma re_search_none_iff (s : str) :
  ~ In NL s -> (re_search s = None <-> ~ has_group s).
Proof.
  intros Hn; split.
  - intros H (pre & g & post & ->).
    revert H. apply re_search_complete.
    intros Hin; apply Hn. apply in_or_app; right; right.
    apply in_or_app; now left.
  - intros H. destruct (re_search s) as [m|] eqn:E; [|reflexivity].
    exfalso; apply H.
    destruct (re_search_sound _ E) as (post & Hs & _).
    now exists (firstn (start m) s), (group1 m), post.
Qed.

End RegexFacts.

(** The shape of the result of [parse_single_highlight]. *)
Section ParseFacts.

Lemma nonempty_lines_no_NL (raw : str) :
  Forall (fun l => ~ In NL l) (nonempty_lines raw).
Proof.
  apply Forall_forall. intros l Hl. apply filter_In in Hl as [Hl _].
  pose proof (str_split_char_free NL raw) as H.
  rewrite Forall_forall in H. now apply H.
Qed.

Lemma nonempty_lines_truthy (raw : str) :
  Forall (fun l => l <> []) (nonempty_lines raw).
Proof.
  apply Forall_forall. intros l Hl. apply filter_In in Hl as [_ Hl].
  now destruct l.
Qed.

Lemma segments_not_nil (meta_line : str) : segments meta_line <> [].
Proof. apply split_from_not_nil. Qed.

Lemma parse_not_three (raw : str) :
  length (nonempty_lines raw) <> 3 -> parse_single_highlight raw = Some no_fields.
Proof.
  intros H. unfold parse_single_highlight. fold (nonempty_lines raw).
  apply Nat.eqb_neq in H. now rewrite H.
Qed.

Lemma parse_three (raw l0 l1 l2 : str) :
  nonempty_lines raw = [l0; l1; l2] ->
  parse_single_highlight raw =
  match re_search l0 with
  | None => Some no_fields
  | Some m =>
      let first_segment := hd [] (segments l1) in
      Some (firstn (start m) l0, group1 m, l2,
            lit "P" ++ py_slice first_segment
              (Some (str_find (lit "page") (strip first_segment) + 1)%Z)
              (Some (-1)%Z),
            skipn 10 (last (segments l1) []))
  end.
Proof.
  intros H. unfold parse_single_highlight. fold (nonempty_lines raw).
  rewrite H. simpl length. simpl negb. cbv iota.
  rewrite py_index_first.
  change (py_index [l0; l1; l2] (-1)) with (Some l2).
  change (py_index [l0; l1; l2] (-2)) with (Some l1).
  destruct (re_search l0) as [m|]; [|reflexivity].
  pose proof (segments_not_nil l1) as Hs. unfold segments in *.
  rewrite (py_index_last (A:=str) [] Hs).
  destruct (str_split (lit "|") l1) as [|d0 ds]; [contradiction|].
  rewrite py_index_first. simpl hd.
  change 10%Z with (Z.of_nat 10).
  now rewrite py_slice_from, py_slice_upto.
Qed.

(** No index of the function can be out of range. *)
Lemma parse_returns (raw : str) :
  exists fields, parse_single_highlight raw = Some fields.
Proof.
  destruct (Nat.eq_dec (length (nonempty_lines raw)) 3) as [H|H].
  - destruct (nonempty_lines raw) as [|l0 [|l1 [|l2 [|? ?]]]] eqn:E;
      try discriminate.
    rewrite (parse_three _ E). destruct (re_search l0); eauto.
  - rewrite (parse_not_three _ H). eauto.
Qed.

End ParseFacts.

(** The aggregation loop builds the grouping of the valid records. *)
Section AggregationFacts.

Arguments key_eq_dec : simpl never.
Arguments key : simpl never.

Lemma first_seen_In (k : BookKey) (ks : list BookKey) :
  In k (first_seen ks) <-> In k ks.
Proof.
  induction ks as [|x ks IH]; simpl; [tauto|].
  rewrite filter_In, IH.
  destruct (key_eq_dec x k) as [->|Hne]; [tauto|].
  split; [intros [E|[H _]]; tauto|intros [E|H]; [tauto|right; tauto]].
Qed.

Lemma first_seen_NoDup (ks : list BookKey) : NoDup (first_seen ks).
Proof.
  induction ks as [|x ks IH]; simpl; constructor.
  - rewrite filter_In. intros [_ H].
    destruct (key_eq_dec x x); [discriminate|contradiction].
  - now apply NoDup_filter.
Qed.

(** A key seen before changes nothing; a new key goes to the end. *)
Lemma first_seen_snoc (ks : list BookKey) (k : BookKey) :
  first_seen (ks ++ [k]) =
  if in_dec key_eq_dec k ks then first_seen ks else first_seen ks ++ [k].
Proof.
  induction ks as [|x ks IH]; [reflexivity|].
  simpl app. simpl first_seen. rewrite IH.
  destruct (in_dec key_eq_dec k (x :: ks)) as [Hin|Hnin];
    destruct (in_dec key_eq_dec k ks) as [Hin'|Hnin'].
  - reflexivity.
  - destruct Hin as [->|Hin]; [|contradiction].
    rewrite filter_app. simpl.
    destruct (key_eq_dec k k); [|contradiction].
    now rewrite app_nil_r.
  - exfalso; apply Hnin; now right.
  - rewrite filter_app. simpl.
    destruct (key_eq_dec x k) as [->|_]; [exfalso; apply Hnin; now left|].
    reflexivity.
Qed.

Variable h : Highlight.

(** Appending under a key of an association list without repeated keys. *)
Lemma books_append_map (F : BookKey -> list Highlight) (ks : list BookKey) :
  NoDup ks ->
  books_append (map (fun k => (k, F k)) ks) (key h) h =
  if in_dec key_eq_dec (key h) ks
  then map (fun k => (k, if key_eq_dec (key h) k then F k ++ [h] else F k)) ks
  else map (fun k => (k, F k)) ks ++ [(key h, [h])].
Proof.
  induction ks as [|x ks IH]; intros Hnd; [reflexivity|].
  inversion Hnd as [|? ? Hx Hks]; subst.
  simpl map. simpl books_append.
  destruct (key_eq_dec (key h) x) as [E|Hne].
  - destruct (in_dec key_eq_dec (key h) (x :: ks)) as [_|Hnin];
      [|exfalso; apply Hnin; now left].
    f_equal. apply map_ext_in. intros k Hk.
    destruct (key_eq_dec (key h) k) as [E'|_]; [|reflexivity].
    exfalso; apply Hx. congruence.
  - rewrite (IH Hks).
    destruct (in_dec key_eq_dec (key h) (x :: ks)) as [Hin|Hnin];
      destruct (in_dec key_eq_dec (key h) ks) as [Hin'|Hnin'].
    + reflexivity.
    + destruct Hin as [E|Hin]; [congruence|contradiction].
    + exfalso; apply Hnin; now right.
    + reflexivity.
Qed.

Lemma filter_same_key_snoc (k : BookKey) (l : list Highlight) :
  filter (same_key k) (l ++ [h]) =
  if key_eq_dec (key h) k then filter (same_key k) l ++ [h]
  else filter (same_key k) l.
Proof.
  rewrite filter_app. simpl. unfold same_key at 2.
  destruct (key_eq_dec (key h) k); [reflexivity|apply app_nil_r].
Qed.

Lemma filter_same_key_fresh (l : list Highlight) :
  ~ In (key h) (map key l) -> filter (same_key (key h)) l = [].
Proof.
  induction l as [|x l IH]; intros Hnin; [reflexivity|].
  simpl. unfold same_key at 1.
  destruct (key_eq_dec (key x) (key h)) as [E|_].
  - exfalso; apply Hnin; left; exact E.
  - apply IH. intros Hin; apply Hnin; now right.
Qed.

(** One more highlight: the grouping of the longer list. *)
Lemma books_append_grouped (l : list Highlight) :
  books_append (grouped l) (key h) h = grouped (l ++ [h]).
Proof.
  unfold grouped.
  rewrite books_append_map by apply first_seen_NoDup.
  rewrite (map_app key). change (map key [h]) with [key h].
  rewrite first_seen_snoc.
  destruct (in_dec key_eq_dec (key h) (first_seen (map key l))) as [Hin|Hnin];
    destruct (in_dec key_eq_dec (key h) (map key l)) as [Hin'|Hnin'].
  - apply map_ext. intros k. now rewrite filter_same_key_snoc.
  - contradict Hnin'. now apply first_seen_In.
  - exfalso; apply Hnin; now apply first_seen_In.
  - rewrite map_app. f_equal.
    + apply map_ext_in. intros k Hk. rewrite filter_same_key_snoc.
      destruct (key_eq_dec (key h) k) as [<-|_]; [contradiction|reflexivity].
    + cbn [map]. rewrite filter_same_key_snoc.
      destruct (key_eq_dec (key h) (key h)); [|contradiction].
      now rewrite filter_same_key_fresh.
Qed.

End AggregationFacts.

Section LoopFacts.

Lemma Highlight_init_returns (raw : str) :
  exists h, Highlight_init raw = Some h.
Proof.
  unfold Highlight_init.
  destruct (parse_returns raw) as ([[[[f1 f2] f3] f4] f5] & ->). eauto.
Qed.

Lemma fold_grouped (hs l : list Highlight) :
  fold_left (fun books h => books_append books (key h) h) hs (grouped l)
  = grouped (l ++ hs).
Proof.
  revert l; induction hs as [|h hs IH]; intros l; simpl.
  - now rewrite app_nil_r.
  - rewrite books_append_grouped, IH, <- app_assoc. reflexivity.
Qed.

(** The loop never raises and appends the valid records in order. *)
Lemma add_all_fold (highlights : list str) (books : Books) :
  add_all books highlights =
  Some (fold_left (fun books h => books_append books (key h) h)
          (filter valid (records_of highlights)) books).
Proof.
  revert books; induction highlights as [|raw rest IH]; intros books;
    [reflexivity|].
  simpl add_all. unfold add_raw. simpl records_of.
  destruct (Highlight_init_returns raw) as (h & ->).
  simpl app. simpl filter. fold (valid h).
  destruct (valid h); simpl; apply IH.
Qed.

Lemma parse_highlights_grouped (data : str) :
  parse_highlights data = Some (grouped (valid_records data)).
Proof.
  unfold parse_highlights. fold (chunks data). rewrite add_all_fold.
  f_equal. apply (fold_grouped _ []).
Qed.

End LoopFacts.

(** ** Properties of [parse_single_highlight] *)

Ltac not_in :=
  let H := fresh in
  intros H; cbn in H; repeat (destruct H as [H|H]; [discriminate H|]); exact H.

Lemma nonempty_lines_of_lines (ls : list str) :
  Forall (fun l => ~ In NL l) ls -> nonempty_lines (of_lines ls) = filter truthy ls.
Proof.
  intros H. unfold nonempty_lines, of_lines.
  destruct ls as [|l ls]; [reflexivity|].
  now rewrite str_split_join_char.
Qed.

(** C1 (as the code has it): the sample chunk parses to the title
    "Sample Book " with the space before the parenthesis kept, the author
    "Jane Doe", the passage, the location "Page 12" and the timestamp
    "Monday, May 1, 2023 10:00:00 AM", and the record passes the validity
    test of the aggregation. *)
Theorem parse_sample_chunk :
  parse_single_highlight sample_chunk
  = Some (lit "Sample Book ", lit "Jane Doe", lit "This is the highlighted text.",
          lit "Page 12", lit "Monday, May 1, 2023 10:00:00 AM")
  /\ option_map valid (Highlight_init sample_chunk) = Some true.
Proof. split; vm_compute; reflexivity. Qed.

(** C1 as stated fails: the record is not the one with title "Sample Book"
    and location "P12". *)
Lemma parse_sample_chunk_not_as_claimed :
  parse_single_highlight sample_chunk
  <> Some (lit "Sample Book", lit "Jane Doe", lit "This is the highlighted text.",
           lit "P12", lit "Monday, May 1, 2023 10:00:00 AM").
Proof. vm_compute. discriminate. Qed.

(** C2 (as the code has it): when the header reads [pre (g) post] with no
    opening parenthesis in [pre] and no closing one in [g], that is when
    [(g)] is the FIRST group of the header, the author is [g] and the title
    is [pre], whatever follows, further groups included. *)
Theorem parse_takes_first_group (pre g post l1 l2 : str) :
  ~ In "("%char pre -> ~ In ")"%char g ->
  Forall (fun l => ~ In NL l) [pre; g; post; l1; l2] ->
  l1 <> [] -> l2 <> [] ->
  exists location timestamp,
    parse_single_highlight
      (of_lines [pre ++ "("%char :: g ++ ")"%char :: post; l1; l2])
    = Some (pre, g, l2, location, timestamp).
Proof.
  intros Hpre Hg Hnl H1 H2.
  repeat match goal with H : Forall _ (_ :: _) |- _ => inversion_clear H end.
  set (header := pre ++ "("%char :: g ++ ")"%char :: post).
  assert (E : nonempty_lines (of_lines [header; l1; l2]) = [header; l1; l2]).
  { rewrite nonempty_lines_of_lines.
    - unfold header. destruct pre, l1, l2; try contradiction; reflexivity.
    - repeat constructor; try assumption.
      unfold header. intros Hin.
      apply in_app_or in Hin as [Hin|[Hin|Hin]]; [contradiction|discriminate|].
      apply in_app_or in Hin as [Hin|[Hin|Hin]];
        [contradiction|discriminate|contradiction]. }
  rewrite (parse_three _ E). unfold header.
  rewrite re_search_leftmost by assumption. cbn [start group1].
  rewrite firstn_app, firstn_all, Nat.sub_diag, app_nil_r. cbn zeta.
  eauto.
Qed.

Lemma parse_takes_first_group_witness :
  exists location timestamp,
    parse_single_highlight two_groups_chunk
    = Some (lit "My Book ", lit "Vol 1", lit "text", location, timestamp).
Proof.
  apply (@parse_takes_first_group
           (lit "My Book ") (lit "Vol 1") (lit " (Jane Doe)")
           (lit "- Your Highlight on page 3 | Added on Monday, May 1, 2023 10:00:00 AM")
           (lit "text")).
  - not_in.
  - not_in.
  - repeat constructor; not_in.
  - discriminate.
  - discriminate.
Defined.

(** C2 as stated fails: with two groups in the header the author is the
    first group, "Vol 1", and the title stops before it; the last group,
    "Jane Doe", is not the author. *)
Lemma parse_two_groups_not_last :
  parse_single_highlight two_groups_chunk
  = Some (lit "My Book ", lit "Vol 1", lit "text", lit "Page 3",
          lit "Monday, May 1, 2023 10:00:00 AM")
  /\ parse_single_highlight two_groups_chunk
     <> Some (lit "My Book (Vol 1) ", lit "Jane Doe", lit "text", lit "Page 3",
              lit "Monday, May 1, 2023 10:00:00 AM").
Proof. split; vm_compute; [reflexivity|discriminate]. Qed.

(** C3 (as the code has it): [parse_single_highlight] never raises; a number
    of non-empty lines other than 3, or a header without a parenthesized
    group, gives the all-empty tuple; a first segment without "page" does
    not: the location is then "P" followed by that segment less its last
    character. *)
Theorem parse_never_raises (raw : str) :
  (exists fields, parse_single_highlight raw = Some fields)
  /\ (length (nonempty_lines raw) <> 3 ->
      parse_single_highlight raw = Some no_fields)
  /\ (forall l0 l1 l2,
        nonempty_lines raw = [l0; l1; l2] -> ~ has_group l0 ->
        parse_single_highlight raw = Some no_fields)
  /\ (forall l0 l1 l2,
        nonempty_lines raw = [l0; l1; l2] -> has_group l0 ->
        str_find (lit "page") (strip (hd [] (segments l1))) = (-1)%Z ->
        exists t a d,
          parse_single_highlight raw
          = Some (t, a, l2, lit "P" ++ removelast (hd [] (segments l1)), d)).
Proof.
  split; [apply parse_returns|].
  split; [apply parse_not_three|].
  split; intros l0 l1 l2 E Hg.
  - rewrite (parse_three _ E).
    assert (Hn : ~ In NL l0).
    { pose proof (nonempty_lines_no_NL raw) as H. rewrite E in H.
      now inversion H. }
    apply (@re_search_none_iff l0 Hn) in Hg. now rewrite Hg.
  - intros Hp. rewrite (parse_three _ E).
    assert (Hn : ~ In NL l0).
    { pose proof (nonempty_lines_no_NL raw) as H. rewrite E in H.
      now inversion H. }
    destruct (re_search l0) as [m|] eqn:Em.
    + cbn zeta. rewrite Hp. change (-1 + 1)%Z with 0%Z.
      rewrite py_slice_but_last. eauto.
    + apply (@re_search_none_iff l0 Hn) in Em. contradiction.
Qed.

Lemma parse_never_raises_witness :
  parse_single_highlight four_lines_chunk = Some no_fields
  /\ parse_single_highlight no_group_chunk = Some no_fields
  /\ exists t a d,
       parse_single_highlight location_chunk
       = Some (t, a, lit "Some text",
               lit "P- Your Highlight on Location 100-102", d).
Proof.
  split; [|split].
  - apply (proj1 (proj2 (parse_never_raises four_lines_chunk))).
    vm_compute. discriminate.
  - apply (proj1 (proj2 (proj2 (parse_never_raises no_group_chunk)))
             (lit "Book by Ann") (lit "- page 3 | Added on Monday") (lit "text")).
    + vm_compute. reflexivity.
    + apply re_search_none_iff; [not_in|vm_compute; reflexivity].
  - apply (proj2 (proj2 (proj2 (parse_never_raises location_chunk)))
             (lit "Book (Ann)")
             (lit "- Your Highlight on Location 100-102 | Added on Monday")
             (lit "Some text")).
    + vm_compute. reflexivity.
    + exists (lit "Book "), (lit "Ann"), []. reflexivity.
    + vm_compute. reflexivity.
Defined.

(** C3 as stated fails: the first segment of this metadata line has no
    "page", yet the tuple returned is not the all-empty one. *)
Lemma parse_without_page_not_empty :
  str_find (lit "page") (strip (lit "- Your Highlight on Location 100-102 "))
  = (-1)%Z
  /\ parse_single_highlight location_chunk
     = Some (lit "Book ", lit "Ann", lit "Some text",
             lit "P- Your Highlight on Location 100-102", lit "Monday")
  /\ parse_single_highlight location_chunk <> Some no_fields.
Proof.
  split; [vm_compute; reflexivity|].
  split; [vm_compute; reflexivity|vm_compute; discriminate].
Qed.

Lemma line_no_NL (raw l0 l1 l2 : str) :
  nonempty_lines raw = [l0; l1; l2] ->
  ~ In NL l0 /\ ~ In NL l1 /\ ~ In NL l2.
Proof.
  intros E. pose proof (nonempty_lines_no_NL raw) as H. rewrite E in H.
  repeat match goal with H : Forall _ (_ :: _) |- _ => inversion_clear H end.
  now repeat split.
Qed.

(** C4 (as the code has it): a tuple returned by [parse_single_highlight] is
    either all-empty or has a non-empty passage and a location that begins
    with "P" (its title or its author may still be empty); every highlight
    stored in the books has a non-empty title and a non-empty author, and
    sits under its own key. *)
Theorem records_empty_or_located :
  (forall raw fields,
      parse_single_highlight raw = Some fields ->
      fields = no_fields
      \/ exists t a c p d, fields = (t, a, c, "P"%char :: p, d) /\ c <> [])
  /\ (forall data books k hs h,
        parse_highlights data = Some books ->
        In (k, hs) books -> In h hs ->
        title h <> [] /\ author h <> [] /\ k = (author h, title h)).
Proof.
  split.
  - intros raw fields H.
    destruct (Nat.eq_dec (length (nonempty_lines raw)) 3) as [H3|H3].
    + destruct (nonempty_lines raw) as [|l0 [|l1 [|l2 [|? ?]]]] eqn:E;
        try discriminate.
      rewrite (parse_three _ E) in H.
      destruct (re_search l0) as [m|]; injection H as <-; [right|now left].
      cbn zeta. do 5 eexists. split; [reflexivity|].
      pose proof (nonempty_lines_truthy raw) as Ht. rewrite E in Ht.
      repeat match goal with H : Forall _ (_ :: _) |- _ => inversion_clear H end.
      assumption.
    + rewrite (parse_not_three _ H3) in H. injection H as <-. now left.
  - intros data books k hs h H Hk Hh.
    rewrite parse_highlights_grouped in H. injection H as <-.
    unfold grouped in Hk. apply in_map_iff in Hk as (k' & Ek & _).
    injection Ek as -> <-.
    apply filter_In in Hh as [Hh Hs]. apply filter_In in Hh as [_ Hv].
    unfold valid in Hv. apply andb_true_iff in Hv as [Ht Ha].
    unfold same_key in Hs. destruct (key_eq_dec (key h) k) as [<-|]; [|discriminate].
    repeat split; [now destruct (title h)|now destruct (author h)].
Qed.

Lemma records_empty_or_located_witness :
  (sample_fields = no_fields
   \/ exists t a c p d, sample_fields = (t, a, c, "P"%char :: p, d) /\ c <> [])
  /\ title sample_highlight <> [] /\ author sample_highlight <> []
  /\ (lit "Jane Doe", lit "Sample Book ")
     = (author sample_highlight, title sample_highlight).
Proof.
  split.
  - apply (proj1 records_empty_or_located sample_chunk sample_fields).
    vm_compute. reflexivity.
  - apply (proj2 records_empty_or_located sample_chunk
             [((lit "Jane Doe", lit "Sample Book "), [sample_highlight])]
             (lit "Jane Doe", lit "Sample Book ") [sample_highlight]
             sample_highlight).
    + vm_compute. reflexivity.
    + left. reflexivity.
    + left. reflexivity.
Defined.

(** C4 as stated fails: for a header that starts with its group the tuple
    has an empty title beside a non-empty author, passage and location; it is
    neither fully populated nor fully empty (and it is not aggregated). *)
Lemma parse_partial_record :
  parse_single_highlight untitled_chunk
  = Some ([], lit "Jane Doe", lit "text", lit "Page 3", lit "Monday")
  /\ parse_single_highlight untitled_chunk <> Some no_fields
  /\ option_map valid (Highlight_init untitled_chunk) = Some false
  /\ parse_highlights untitled_chunk = Some [].
Proof.
  split; [vm_compute; reflexivity|].
  split; [vm_compute; discriminate|].
  split; vm_compute; reflexivity.
Qed.

(** C5 (as the code has it): only the empty lines of the chunk are
    discarded (a line of spaces is kept and counted); the all-empty tuple is
    returned exactly when the number of remaining lines is not 3 or the first
    of them has no parenthesized group. *)
Theorem parse_counts_nonempty_lines :
  (forall ls,
      Forall (fun l => ~ In NL l) ls ->
      nonempty_lines (of_lines ls) = filter truthy ls)
  /\ (forall raw raw',
        nonempty_lines raw = nonempty_lines raw' ->
        parse_single_highlight raw = parse_single_highlight raw')
  /\ (forall raw,
        parse_single_highlight raw = Some no_fields
        <-> (length (nonempty_lines raw) <> 3
             \/ ~ has_group (hd [] (nonempty_lines raw)))).
Proof.
  split; [apply nonempty_lines_of_lines|].
  split.
  { intros raw raw' H. unfold parse_single_highlight.
    fold (nonempty_lines raw). fold (nonempty_lines raw'). now rewrite H. }
  intros raw.
  destruct (Nat.eq_dec (length (nonempty_lines raw)) 3) as [H3|H3].
  - destruct (nonempty_lines raw) as [|l0 [|l1 [|l2 [|? ?]]]] eqn:E;
      try discriminate.
    destruct (line_no_NL _ E) as (Hn & _).
    rewrite (parse_three _ E). cbn [hd].
    rewrite <- (@re_search_none_iff l0 Hn).
    destruct (re_search l0) as [m|]; split.
    + intros H. cbn zeta in H. discriminate H.
    + intros [H|H]; [contradiction|discriminate].
    + now right.
    + reflexivity.
  - rewrite (parse_not_three _ H3). split; [now left|reflexivity].
Qed.

Lemma parse_counts_nonempty_lines_witness :
  nonempty_lines (of_lines blank_line_lines) = blank_line_lines
  /\ parse_single_highlight (of_lines empty_line_lines)
     = parse_single_highlight (of_lines three_lines)
  /\ parse_single_highlight (of_lines blank_line_lines) = Some no_fields.
Proof.
  split; [|split].
  - apply (proj1 parse_counts_nonempty_lines blank_line_lines).
    repeat constructor; not_in.
  - apply (proj1 (proj2 parse_counts_nonempty_lines)
             (of_lines empty_line_lines) (of_lines three_lines)).
    vm_compute. reflexivity.
  - apply (proj2 (proj2 parse_counts_nonempty_lines) (of_lines blank_line_lines)).
    left. vm_compute. discriminate.
Defined.

(** C5 as stated fails: three lines parse to a record, the same three lines
    with a line of spaces among them make four lines and parse to the
    all-empty tuple. *)
Lemma whitespace_line_is_counted :
  parse_single_highlight (of_lines three_lines)
  = Some (lit "Book ", lit "Ann", lit "text", lit "Page 3", lit "Monday")
  /\ length (nonempty_lines (of_lines blank_line_lines)) = 4
  /\ parse_single_highlight (of_lines blank_line_lines) = Some no_fields.
Proof. repeat split. Qed.

(** C10 (as the code has it): three lines, a header [pre (g) post] whose
    first group [(g)] has a non-empty [pre] before it and a non-empty [g]
    inside, and a last segment of at most 10 characters: the timestamp is
    empty and the record is stored under (g, pre) all the same. *)
Theorem short_last_segment_empty_date (raw l0 l1 l2 pre g post : str) (books : Books) :
  nonempty_lines raw = [l0; l1; l2] ->
  l0 = pre ++ "("%char :: g ++ ")"%char :: post ->
  ~ In "("%char pre -> ~ In ")"%char g ->
  pre <> [] -> g <> [] ->
  length (last (segments l1) []) <= 10 ->
  exists location h,
    parse_single_highlight raw = Some (pre, g, l2, location, [])
    /\ Highlight_init raw = Some h
    /\ valid h = true
    /\ add_raw books raw = Some (books_append books (g, pre) h).
Proof.
  intros E -> Hpre Hg Hp Hgn Hlen.
  destruct (line_no_NL _ E) as (Hn & _).
  assert (Hng : ~ In NL g).
  { intros Hin; apply Hn. apply in_or_app; right; right.
    apply in_or_app; now left. }
  assert (P : exists location,
             parse_single_highlight raw = Some (pre, g, l2, location, [])).
  { rewrite (parse_three _ E), re_search_leftmost by assumption.
    cbn [start group1]. cbn zeta.
    rewrite firstn_app, firstn_all, Nat.sub_diag, app_nil_r.
    rewrite (skipn_all2 (n := 10)) by exact Hlen. eauto. }
  destruct P as (location & P).
  exists location, (mkHighlight pre g l2 location []).
  unfold add_raw, Highlight_init, valid. rewrite P. cbn [title author].
  destruct pre; [contradiction|]. destruct g; [contradiction|].
  repeat split.
Qed.

Lemma short_last_segment_empty_date_witness :
  exists location h,
    parse_single_highlight short_date_chunk
    = Some (lit "Book ", lit "Ann", lit "text", location, [])
    /\ Highlight_init short_date_chunk = Some h
    /\ valid h = true
    /\ add_raw [] short_date_chunk
       = Some (books_append [] (lit "Ann", lit "Book ") h).
Proof.
  apply (@short_last_segment_empty_date short_date_chunk
           (lit "Book (Ann)") (lit "- Your Highlight on page 3 | short") (lit "text")
           (lit "Book ") (lit "Ann") [] []).
  - vm_compute. reflexivity.
  - reflexivity.
  - not_in.
  - not_in.
  - discriminate.
  - discriminate.
  - vm_compute. lia.
Defined.

(** C10 as stated fails: three lines, a header with a group, a last segment
    of 6 characters; the timestamp is empty but so is the title, and the
    record is not aggregated. *)
Lemma short_date_untitled_not_aggregated :
  nonempty_lines short_date_untitled_chunk
  = [lit "(Jane Doe)"; lit "- Your Highlight on page 3 | short"; lit "text"]
  /\ has_group (lit "(Jane Doe)")
  /\ length (last (segments (lit "- Your Highlight on page 3 | short")) []) = 6
  /\ parse_single_highlight short_date_untitled_chunk
     = Some ([], lit "Jane Doe", lit "text", lit "Page 3", [])
  /\ parse_highlights short_date_untitled_chunk = Some [].
Proof.
  split; [vm_compute; reflexivity|].
  split; [exists [], (lit "Jane Doe"), []; reflexivity|].
  split; [vm_compute; reflexivity|].
  split; vm_compute; reflexivity.
Qed.

(** ** Properties of the aggregation *)

(** C6 (as the code has it): two valid records of a text are stored in the
    same book exactly when their (author, title) pairs are equal as
    extracted, character for character; nothing is trimmed. *)
Theorem same_book_iff_same_key (data : str) (books : Books) (h1 h2 : Highlight) :
  parse_highlights data = Some books ->
  In h1 (valid_records data) -> In h2 (valid_records data) ->
  ((exists k hs, In (k, hs) books /\ In h1 hs /\ In h2 hs)
   <-> (author h1, title h1) = (author h2, title h2)).
Proof.
  intros H H1 H2.
  rewrite parse_highlights_grouped in H. injection H as <-.
  assert (Hin : forall k hs h,
             In (k, hs) (grouped (valid_records data)) -> In h hs -> key h = k).
  { intros k hs h Hk Hh. unfold grouped in Hk.
    apply in_map_iff in Hk as (k' & Ek & _). injection Ek as -> <-.
    apply filter_In in Hh as [_ Hs]. unfold same_key in Hs.
    now destruct (key_eq_dec (key h) k). }
  split.
  - intros (k & hs & Hk & Hh1 & Hh2).
    change (key h1 = key h2).
    now rewrite (Hin _ _ _ Hk Hh1), (Hin _ _ _ Hk Hh2).
  - intros E. change (key h1 = key h2) in E.
    exists (key h1), (filter (same_key (key h1)) (valid_records data)).
    repeat split.
    + unfold grouped. apply in_map_iff. exists (key h1). split; [reflexivity|].
      apply first_seen_In. now apply in_map.
    + apply filter_In. split; [assumption|]. unfold same_key.
      now destruct (key_eq_dec (key h1) (key h1)).
    + apply filter_In. split; [assumption|]. unfold same_key.
      destruct (key_eq_dec (key h2) (key h1)); [reflexivity|congruence].
Qed.

Lemma same_book_iff_same_key_witness :
  (exists k hs,
      In (k, hs) [((lit "Jane Doe", lit "Sample Book "),
                   [first_highlight; second_highlight])]
      /\ In first_highlight hs /\ In second_highlight hs)
  <-> (author first_highlight, title first_highlight)
      = (author second_highlight, title second_highlight).
Proof.
  apply (@same_book_iff_same_key same_book_text).
  - vm_compute. reflexivity.
  - vm_compute. left. reflexivity.
  - vm_compute. right. left. reflexivity.
Defined.

(** C6 as stated fails: the two titles differ only by a space at their end,
    the pairs are equal after trimming, and the records go to two books. *)
Lemma titles_differing_in_whitespace_split :
  parse_highlights spaced_titles_text
  = Some [((lit "A", lit "Book "), [spaced_highlight_1]);
          ((lit "A", lit "Book  "), [spaced_highlight_2])]
  /\ (strip (author spaced_highlight_1), strip (title spaced_highlight_1))
     = (strip (author spaced_highlight_2), strip (title spaced_highlight_2)).
Proof. split; vm_compute; reflexivity. Qed.

(** C7: for every text the loop returns, without raising, the books whose
    keys are the keys of the valid records in the order of their first
    occurrence, each with the valid records of that key in the order of
    their chunks; [records_of] has one record per chunk, in chunk order. *)
Theorem parse_highlights_keeps_order (data : str) :
  map Some (records_of (chunks data)) = map Highlight_init (chunks data)
  /\ parse_highlights data
     = Some (map (fun k => (k, filter (same_key k) (valid_records data)))
               (first_seen (map key (valid_records data)))).
Proof.
  split; [|apply parse_highlights_grouped].
  induction (chunks data) as [|raw rest IH]; [reflexivity|].
  simpl. destruct (Highlight_init_returns raw) as (h & ->).
  simpl. now rewrite IH.
Qed.

(** C9 (as the code has it): the text is cut at the leftmost occurrence of
    ten consecutive equal signs, wherever it stands, and again in what
    follows it; the chunks joined by the separator give the text back. *)
Theorem chunks_cut_at_every_occurrence (data : str) :
  str_join HIGHLIGHT_SEPARATOR (chunks data) = data
  /\ chunks data
     = match first_occ HIGHLIGHT_SEPARATOR data with
       | None => [data]
       | Some n => firstn n data :: chunks (skipn (n + 10) data)
       end
  /\ parse_highlights data = add_all [] (chunks data).
Proof.
  assert (Hsep : HIGHLIGHT_SEPARATOR <> []) by discriminate.
  split; [apply (str_join_split Hsep)|].
  split; [apply (str_split_first_occ Hsep)|reflexivity].
Qed.

(** C9 as stated fails: ten equal signs in the middle of a line cut the
    text in two, where the lines of the text give a single chunk. *)
Lemma separator_inside_line_cuts :
  chunks embedded_separator_text = [lit "ab"; lit "cd"]
  /\ chunks_at_separator_lines embedded_separator_text = [embedded_separator_text]
  /\ chunks embedded_separator_text
     <> chunks_at_separator_lines embedded_separator_text.
Proof.
  split; [vm_compute; reflexivity|].
  split; [vm_compute; reflexivity|vm_compute; discriminate].
Qed.

(** ** Properties of the rendering *)

Lemma str_replace_NL (s : str) :
  str_replace [NL] (lit " ") s
  = map (fun c => if Ascii.eqb c NL then " "%char else c) s.
Proof.
  unfold str_replace. induction s as [|x t IH]; [reflexivity|].
  rewrite str_split_char_cons. rewrite Ascii.eqb_sym.
  cbn [map]. destruct (Ascii.eqb x NL).
  - destruct (str_split [NL] t) as [|h r] eqn:E;
      [now apply split_from_not_nil in E|].
    rewrite <- IH. reflexivity.
  - destruct (str_split [NL] t) as [|h r] eqn:E;
      [now apply split_from_not_nil in E|].
    rewrite str_join_cons_head, IH. reflexivity.
Qed.

Lemma no_double_NL (body s : str) (c : ascii) :
  c <> NL -> (body ++ [c]) ++ [NL] <> s ++ [NL; NL].
Proof.
  intros Hc E. change (s ++ [NL; NL]) with (s ++ [NL] ++ [NL]) in E.
  rewrite (app_assoc s) in E.
  apply app_inj_tail in E as [E _]. apply app_inj_tail in E as [_ E].
  contradiction.
Qed.

(** [format_highlight] as a function of the attributes of the object it is
    given: the prefix of the style, the passage with each newline turned into
    a space, the suffix built from the attributes [date] and [page] as the
    two flags say, and one newline; the line never ends with two. *)
Lemma format_highlight_line
    (self : Formatting) (h : Highlight) (add_date add_page : bool) :
  format_highlight self h add_date add_page
  = match self with
    | BULLET => lit "> "
    | QUOTE => lit "- "
    | PARAGRAPH => []
    end
    ++ map (fun c => if Ascii.eqb c NL then " "%char else c) (content h)
    ++ match add_date, add_page with
       | true, true => lit " (Added on " ++ date h ++ lit ", " ++ page h ++ lit ")"
       | true, false => lit " (Added on " ++ date h ++ lit ")"
       | false, true => lit " (" ++ page h ++ lit ")"
       | false, false => []
       end
    ++ [NL]
  /\ forall s, format_highlight self h add_date add_page <> s ++ [NL; NL].
Proof.
  assert (E : format_highlight self h add_date add_page
    = match self with
      | BULLET => lit "> "
      | QUOTE => lit "- "
      | PARAGRAPH => []
      end
      ++ map (fun c => if Ascii.eqb c NL then " "%char else c) (content h)
      ++ match add_date, add_page with
         | true, true => lit " (Added on " ++ date h ++ lit ", " ++ page h ++ lit ")"
         | true, false => lit " (Added on " ++ date h ++ lit ")"
         | false, true => lit " (" ++ page h ++ lit ")"
         | false, false => []
         end
      ++ [NL]).
  { unfold format_highlight. rewrite str_replace_NL.
    destruct self, add_date, add_page; cbn [andb negb];
      repeat rewrite <- app_assoc; rewrite ?app_nil_l; reflexivity. }
  split; [exact E|].
  intros s. rewrite E. clear E.
  change (lit ")") with [")"%char].
  destruct add_date, add_page.
  - rewrite !app_assoc. apply no_double_NL. discriminate.
  - rewrite !app_assoc. apply no_double_NL. discriminate.
  - rewrite !app_assoc. apply no_double_NL. discriminate.
  - rewrite app_nil_l.
    destruct (content h) as [|c l _] using rev_ind.
    + destruct self; cbn [map app lit list_ascii_of_string].
      * apply (no_double_NL [">"%char]). discriminate.
      * apply (no_double_NL ["-"%char]). discriminate.
      * intros Hs. apply (f_equal (@length ascii)) in Hs.
        rewrite length_app in Hs. simpl in Hs. lia.
    + rewrite map_app. cbn [map]. rewrite !app_assoc. apply no_double_NL.
      destruct (Ascii.eqb_spec c NL); [discriminate|assumption].
Qed.


(** C8 (the code on the sample chunk): the object the constructor builds
    from the sample chunk carries the location "Page 12" as its date and the
    timestamp as its page, so the line rendered with the date alone ends with
    "(Added on Page 12)", not with the date of the highlight, and the line
    rendered with the page alone ends with the timestamp in parentheses. *)
Theorem sample_rendered_with_fields_swapped :
  option_map (fun h => (date h, page h)) (Highlight_init sample_chunk)
  = Some (lit "Page 12", lit "Monday, May 1, 2023 10:00:00 AM")
  /\ option_map (fun h => format_highlight BULLET h true false)
       (Highlight_init sample_chunk)
     = Some (lit "> This is the highlighted text. (Added on Page 12)" ++ [NL])
  /\ option_map (fun h => format_highlight BULLET h true false)
       (Highlight_init sample_chunk)
     <> Some (lit "> This is the highlighted text. (Added on Monday, May 1, 2023 10:00:00 AM)"
              ++ [NL])
  /\ option_map (fun h => format_highlight BULLET h false true)
       (Highlight_init sample_chunk)
     = Some (lit "> This is the highlighted text. (Monday, May 1, 2023 10:00:00 AM)"
             ++ [NL]).
Proof.
  split; [vm_compute; reflexivity|].
  split; [vm_compute; reflexivity|].
  split; [vm_compute; discriminate|vm_compute; reflexivity].
Qed.

(** ** Further properties of [parse_single_highlight] *)

Lemma in_str_join (sep seg : str) (l : list str) (c : ascii) :
  In seg l -> In c seg -> In c (str_join sep l).
Proof.
  induction l as [|x r IH]; intros Hl Hc; [contradiction|].
  destruct r as [|y r].
  - destruct Hl as [->|[]]. exact Hc.
  - change (str_join sep (x :: y :: r)) with (x ++ sep ++ str_join sep (y :: r)).
    destruct Hl as [->|Hl]; apply in_or_app; [now left|right].
    apply in_or_app; right. now apply IH.
Qed.

(** The chunks of a split are made of characters of the text. *)
Lemma in_str_split (sep seg s : str) (c : ascii) :
  sep <> [] -> In seg (str_split sep s) -> In c seg -> In c s.
Proof.
  intros Hsep Hl Hc. rewrite <- (str_join_split Hsep s).
  now apply in_str_join with seg.
Qed.

Lemma in_py_slice (A : Type) (l : list A) (lo hi : option Z) (x : A) :
  In x (py_slice l lo hi) -> In x l.
Proof.
  unfold py_slice. intros H.
  match type of H with In _ (firstn ?n (skipn ?k _)) =>
    rewrite <- (firstn_skipn k l); apply in_or_app; right;
    rewrite <- (firstn_skipn n (skipn k l)); apply in_or_app; now left
  end.
Qed.

Lemma segments_hd_in (l1 : str) : In (hd [] (segments l1)) (segments l1).
Proof.
  pose proof (segments_not_nil l1) as H.
  destruct (segments l1); [contradiction|now left].
Qed.

Lemma segments_last_in (l1 : str) : In (last (segments l1) []) (segments l1).
Proof.
  pose proof (segments_not_nil l1) as H.
  destruct (segments l1) as [|x r] eqn:E; [contradiction|].
  destruct (exists_last H) as (l' & y & E').
  rewrite E', last_last. apply in_or_app; right; now left.
Qed.

(** On a line, nothing before the match is an opening parenthesis. *)
Lemma re_search_prefix_no_lparen (s : str) (m : Match) :
  ~ In NL s -> re_search s = Some m -> ~ In "("%char (firstn (start m) s).
Proof.
  revert m; induction s as [|c t IH]; intros m Hn H; [discriminate|].
  rewrite re_search_cons in H.
  destruct (match_here (c :: t)) as [g|] eqn:E.
  - injection H as <-. intros [].
  - destruct (re_search t) as [m'|] eqn:Et; [|discriminate].
    injection H as <-. cbn [start firstn].
    assert (Hnt : ~ In NL t) by (intros Hin; apply Hn; now right).
    intros [Hc|Hin]; [|now apply (IH m' Hnt eq_refl)].
    subst c. simpl in E.
    destruct (re_search_sound _ Et) as (post & Hs & _).
    rewrite Hs in E.
    set (pre := firstn (start m') t) in *.
    change (pre ++ "("%char :: group1 m' ++ ")"%char :: post)
      with (pre ++ ["("%char] ++ group1 m' ++ ")"%char :: post) in E.
    rewrite !app_assoc in E.
    revert E. apply lazy_until_rparen_complete.
    intros Hin. apply Hnt. rewrite Hs. fold pre.
    apply in_app_or in Hin as [Hin|Hin].
    + apply in_app_or in Hin as [Hin|Hin];
        [apply in_or_app; now left|].
      destruct Hin as [Hin|[]]. discriminate Hin.
    + apply in_or_app; right; right. apply in_or_app; now left.
Qed.

Ltac three_lines_of raw E :=
  destruct (nonempty_lines raw) as [|?l0 [|?l1 [|?l2 [|? ?]]]] eqn:E;
  try discriminate.

Lemma parse_fields_on_one_line_aux (raw t a c p d : str) :
  parse_single_highlight raw = Some (t, a, c, p, d) ->
  Forall (fun field => ~ In NL field) [t; a; c; p; d]
  /\ ~ In "|"%char p /\ ~ In "|"%char d.
Proof.
  intros H.
  destruct (Nat.eq_dec (length (nonempty_lines raw)) 3) as [H3|H3].
  - three_lines_of raw E.
    destruct (line_no_NL _ E) as (Hn0 & Hn1 & Hn2).
    rewrite (parse_three _ E) in H.
    destruct (re_search l0) as [m|] eqn:Em.
    + cbn zeta in H. injection H as <- <- <- <- <-.
      destruct (re_search_sound _ Em) as (post & _ & _ & _ & Hng).
      assert (Hseg : forall seg x, In seg (segments l1) -> In x seg -> In x l1).
      { intros seg x Hs Hx. apply in_str_split with (sep := lit "|") (seg := seg);
          [discriminate|exact Hs|exact Hx]. }
      assert (Hpipe : forall seg, In seg (segments l1) -> ~ In "|"%char seg).
      { intros seg Hs. pose proof (str_split_char_free "|"%char l1) as F.
        rewrite Forall_forall in F. now apply F. }
      split; [repeat constructor|split].
      * intros Hin. apply Hn0.
        rewrite <- (firstn_skipn (start m) l0). apply in_or_app; now left.
      * exact Hng.
      * exact Hn2.
      * intros [Hin|Hin]; [discriminate Hin|].
        apply in_py_slice in Hin. apply Hn1.
        apply (Hseg _ _ (segments_hd_in l1) Hin).
      * intros Hin. apply Hn1. apply (Hseg _ _ (segments_last_in l1)).
        rewrite <- (firstn_skipn 10 (last (segments l1) [])).
        apply in_or_app; now right.
      * intros [Hin|Hin]; [discriminate Hin|].
        apply in_py_slice in Hin. now apply (Hpipe _ (segments_hd_in l1)).
      * intros Hin. apply (Hpipe _ (segments_last_in l1)).
        rewrite <- (firstn_skipn 10 (last (segments l1) [])).
        apply in_or_app; now right.
    + injection H as <- <- <- <- <-.
      split; [repeat constructor|split]; intros [].
  - rewrite (parse_not_three _ H3) in H. injection H as <- <- <- <- <-.
    split; [repeat constructor|split]; intros [].
Qed.

(** X1: no field of a parsed tuple contains a newline, and neither the
    location nor the timestamp contains the pipe that separates the segments
    of the metadata line. *)
Theorem parse_fields_on_one_line (raw t a c p d : str) :
  parse_single_highlight raw = Some (t, a, c, p, d) ->
  Forall (fun field => ~ In NL field) [t; a; c; p; d]
  /\ ~ In "|"%char p /\ ~ In "|"%char d.
Proof. apply parse_fields_on_one_line_aux. Qed.

Lemma parse_fields_on_one_line_witness :
  Forall (fun field => ~ In NL field)
    [lit "Sample Book "; lit "Jane Doe"; lit "This is the highlighted text.";
     lit "Page 12"; lit "Monday, May 1, 2023 10:00:00 AM"]
  /\ ~ In "|"%char (lit "Page 12")
  /\ ~ In "|"%char (lit "Monday, May 1, 2023 10:00:00 AM").
Proof.
  apply (@parse_fields_on_one_line sample_chunk).
  vm_compute. reflexivity.
Defined.

(** X2: a tuple that is not all-empty gives the header back: the chunk has
    three non-empty lines, the first is the title, an opening parenthesis,
    the author, a closing parenthesis and a rest, the third is the passage;
    the title has no opening parenthesis and the author no closing one. *)
Theorem parse_header_rebuilt (raw t a c p d : str) :
  parse_single_highlight raw = Some (t, a, c, p, d) ->
  (t, a, c, p, d) <> no_fields ->
  exists l1 post,
    nonempty_lines raw = [t ++ "("%char :: a ++ ")"%char :: post; l1; c]
    /\ ~ In "("%char t /\ ~ In ")"%char a.
Proof.
  intros H Hne.
  destruct (Nat.eq_dec (length (nonempty_lines raw)) 3) as [H3|H3].
  - three_lines_of raw E.
    destruct (line_no_NL _ E) as (Hn0 & _).
    rewrite (parse_three _ E) in H.
    destruct (re_search l0) as [m|] eqn:Em.
    + cbn zeta in H. injection H as <- <- <- <- <-.
      destruct (re_search_sound _ Em) as (post & Hs & _ & Hr & _).
      exists l1, post. split; [now rewrite <- Hs|].
      split; [now apply re_search_prefix_no_lparen|exact Hr].
    + injection H as <- <- <- <- <-. now contradiction Hne.
  - rewrite (parse_not_three _ H3) in H. injection H as <- <- <- <- <-.
    now contradiction Hne.
Qed.

Lemma parse_header_rebuilt_witness :
  exists l1 post,
    nonempty_lines two_groups_chunk
    = [lit "My Book " ++ "("%char :: lit "Vol 1" ++ ")"%char :: post; l1; lit "text"]
    /\ ~ In "("%char (lit "My Book ") /\ ~ In ")"%char (lit "Vol 1").
Proof.
  apply (@parse_header_rebuilt two_groups_chunk
           (lit "My Book ") (lit "Vol 1") (lit "text") (lit "Page 3")
           (lit "Monday, May 1, 2023 10:00:00 AM")).
  - vm_compute. reflexivity.
  - discriminate.
Defined.

(** Stripping, searching and slicing on the first segment. *)
Section SegmentFacts.

Lemma lstrip_app_nonspace (w z : str) (x : ascii) :
  isspace x = false -> lstrip (w ++ x :: z) = lstrip w ++ x :: z.
Proof.
  intros Hx. induction w as [|c w IH]; simpl.
  - now rewrite Hx.
  - destruct (isspace c); [exact IH|reflexivity].
Qed.

Lemma rstrip_app_nonspace (u v : str) (x : ascii) :
  isspace x = false -> rstrip (u ++ x :: v) = u ++ x :: rstrip v.
Proof.
  intros Hx. unfold rstrip.
  rewrite rev_app_distr. simpl rev. rewrite <- app_assoc. simpl app.
  rewrite lstrip_app_nonspace by exact Hx.
  rewrite rev_app_distr. simpl rev. rewrite rev_involutive, <- app_assoc.
  reflexivity.
Qed.

Lemma lstrip_spaces (ws s : str) :
  Forall (fun c => isspace c = true) ws -> lstrip (ws ++ s) = lstrip s.
Proof.
  induction 1 as [|c ws Hc _ IH]; [reflexivity|].
  simpl. now rewrite Hc.
Qed.

Lemma lstrip_head_nonspace (s : str) :
  isspace (hd "p"%char s) = false -> s <> [] -> lstrip s = s.
Proof.
  destruct s as [|c s]; [contradiction|]. simpl. now intros ->.
Qed.

Lemma find_from_unfold (sub s : str) (i : Z) :
  find_from sub s i =
  if startswith sub s then i
  else match s with
       | [] => (-1)%Z
       | _ :: t => find_from sub t (i + 1)%Z
       end.
Proof. destruct s; reflexivity. Qed.

Lemma find_page_after (a w : str) (i : Z) :
  ~ In "p"%char a ->
  find_from (lit "page") (a ++ lit "page" ++ w) i = (i + Z.of_nat (length a))%Z.
Proof.
  revert i; induction a as [|x a IH]; intros i Hp.
  - change ([] ++ lit "page" ++ w) with (lit "page" ++ w).
    rewrite find_from_unfold, startswith_app. simpl length. lia.
  - change ((x :: a) ++ lit "page" ++ w) with (x :: a ++ lit "page" ++ w).
    rewrite find_from_unfold.
    assert (Hs : startswith (lit "page") (x :: a ++ lit "page" ++ w) = false).
    { cbn [startswith lit list_ascii_of_string].
      destruct (Ascii.eqb_spec "p" x) as [<-|_]; [|reflexivity].
      exfalso; apply Hp; now left. }
    rewrite Hs, IH by (intros Hin; apply Hp; now right).
    simpl length. lia.
Qed.

(** [l[i:-1]] for a non-negative [i]. *)
Lemma py_slice_mid (A : Type) (l : list A) (i : nat) :
  py_slice l (Some (Z.of_nat i)) (Some (-1)%Z) = skipn i (removelast l).
Proof.
  unfold py_slice, clamp.
  replace (Z.of_nat i <? 0)%Z with false by (symmetry; apply Z.ltb_ge; lia).
  change (-1 <? 0)%Z with true. cbv iota.
  rewrite removelast_firstn_len, skipn_firstn_comm.
  destruct (Z.min_spec (Z.of_nat i) (Z.of_nat (length l))) as [[H E]|[H E]];
    rewrite E, Nat2Z.id.
  - f_equal. lia.
  - replace (Z.to_nat (Z.max (-1 + Z.of_nat (length l)) 0) - length l) with 0
      by lia.
    replace (pred (length l) - i) with 0 by lia. reflexivity.
Qed.

(** The location computed from a first segment that reads: whitespace,
    [a], "page", [b] and one last character. *)
Lemma location_of_segment (ws a b : str) (c : ascii) :
  Forall (fun x => isspace x = true) ws ->
  isspace (hd "p"%char a) = false -> ~ In "p"%char a ->
  let seg := ws ++ a ++ lit "page" ++ b ++ [c] in
  lit "P" ++ py_slice seg (Some (str_find (lit "page") (strip seg) + 1)%Z)
             (Some (-1)%Z)
  = "P"%char :: skipn (length a + 1) (ws ++ a ++ lit "page" ++ b).
Proof.
  intros Hws Ha Hp seg.
  assert (Hl : lstrip seg = a ++ lit "page" ++ b ++ [c]).
  { unfold seg. rewrite lstrip_spaces by exact Hws.
    destruct a as [|x a]; [reflexivity|].
    apply lstrip_head_nonspace; [exact Ha|discriminate]. }
  assert (Hf : str_find (lit "page") (strip seg) = Z.of_nat (length a)).
  { unfold strip. rewrite Hl.
    change (a ++ lit "page" ++ b ++ [c])
      with (a ++ lit "pag" ++ "e"%char :: (b ++ [c])).
    rewrite app_assoc, rstrip_app_nonspace by reflexivity.
    rewrite <- app_assoc.
    change (a ++ lit "pag" ++ "e"%char :: rstrip (b ++ [c]))
      with (a ++ lit "page" ++ rstrip (b ++ [c])).
    unfold str_find. now rewrite find_page_after. }
  rewrite Hf.
  replace (Z.of_nat (length a) + 1)%Z with (Z.of_nat (length a + 1)) by lia.
  rewrite py_slice_mid. unfold seg.
  replace (ws ++ a ++ lit "page" ++ b ++ [c])
    with ((ws ++ a ++ lit "page" ++ b) ++ [c])
    by (now rewrite <- !app_assoc).
  now rewrite removelast_last.
Qed.

(** The last segment is what follows the last pipe. *)
Lemma segments_snoc (x y : str) :
  ~ In "|"%char y -> exists l, segments (x ++ "|"%char :: y) = l ++ [y].
Proof.
  intros Hy. unfold segments. change (lit "|") with ["|"%char].
  induction x as [|c x IH].
  - exists [[]]. simpl app. rewrite str_split_char_cons, Ascii.eqb_refl.
    now rewrite str_split_char_notin.
  - destruct IH as (l & IH). simpl app. rewrite str_split_char_cons, IH.
    destruct (Ascii.eqb "|" c); [now exists ([] :: l)|].
    destruct l as [|h l].
    + exfalso.
      pose proof (@str_join_split ["|"%char] ltac:(discriminate)
                    (x ++ "|"%char :: y)) as J.
      rewrite IH in J. simpl in J. apply (f_equal (@length ascii)) in J.
      rewrite length_app in J. simpl in J. lia.
    + now exists ((c :: h) :: l).
Qed.

Lemma has_group_found (l0 : str) :
  ~ In NL l0 -> has_group l0 -> exists m, re_search l0 = Some m.
Proof.
  intros Hn Hg. destruct (re_search l0) as [m|] eqn:E; [eauto|].
  now apply (@re_search_none_iff l0 Hn) in E.
Qed.

End SegmentFacts.

(** X3: when the first segment of the metadata line starts with no
    whitespace and reads [a], "page", [b] and one last character, with no
    "p" in [a], the location is "Page" followed by [b]. *)
Theorem location_is_Page (raw l0 l2 a b rest : str) (c : ascii) :
  nonempty_lines raw = [l0; a ++ lit "page" ++ b ++ c :: "|"%char :: rest; l2] ->
  has_group l0 ->
  isspace (hd "p"%char a) = false -> ~ In "p"%char a ->
  ~ In "|"%char (a ++ b ++ [c]) ->
  exists t au d,
    parse_single_highlight raw = Some (t, au, l2, lit "Page" ++ b, d).
Proof.
  intros E Hg Ha Hp Hpipe.
  destruct (line_no_NL _ E) as (Hn0 & _).
  destruct (has_group_found Hn0 Hg) as (m & Em).
  rewrite (parse_three _ E), Em. cbn zeta.
  assert (Hseg : hd [] (segments (a ++ lit "page" ++ b ++ c :: "|"%char :: rest))
                 = [] ++ a ++ lit "page" ++ b ++ [c]).
  { unfold segments. change (lit "|") with ["|"%char].
    replace (a ++ lit "page" ++ b ++ c :: "|"%char :: rest)
      with ((a ++ lit "page" ++ b ++ [c]) ++ "|"%char :: rest)
      by (now rewrite <- !app_assoc).
    rewrite str_split_char_app; [reflexivity|].
    intros Hin. apply Hpipe.
    apply in_app_or in Hin as [Hin|Hin]; [apply in_or_app; now left|].
    apply in_app_or in Hin as [Hin|Hin]; [|apply in_or_app; now right].
    simpl in Hin. decompose [or] Hin; discriminate || contradiction. }
  rewrite Hseg.
  rewrite (@location_of_segment [] a b c) by (constructor || assumption).
  simpl app at 1. rewrite skipn_app, skipn_all2 by lia.
  replace (length a + 1 - length a) with 1 by lia.
  do 3 eexists. reflexivity.
Qed.

Lemma location_is_Page_witness :
  exists t au d,
    parse_single_highlight sample_chunk
    = Some (t, au, lit "This is the highlighted text.", lit "Page" ++ lit " 12", d).
Proof.
  apply (@location_is_Page sample_chunk (lit "Sample Book (Jane Doe)")
           (lit "This is the highlighted text.")
           (lit "- Your Highlight on ") (lit " 12")
           (lit " Added on Monday, May 1, 2023 10:00:00 AM") " "%char).
  - vm_compute. reflexivity.
  - exists (lit "Sample Book "), (lit "Jane Doe"), []. reflexivity.
  - reflexivity.
  - not_in.
  - not_in.
Defined.

(** A metadata line that starts with a space. *)
Lemma indented_meta_chunk_lines :
  nonempty_lines
    (of_lines [lit "Book (Ann)"; lit " - Your Highlight on page 12 | Added on Monday";
               lit "text"])
  = [lit "Book (Ann)";
     lit " " ++ lit "- Your Highlight on " ++ lit "page" ++ lit " 12"
       ++ " "%char :: "|"%char :: lit " Added on Monday";
     lit "text"].
Proof. vm_compute. reflexivity. Qed.

(** X4: the index of "page" is looked up in the stripped first segment and
    used in the unstripped one: when the segment starts with the whitespace
    [ws], the location is "P" followed by the segment, less its last
    character, from position [length a + 1] on, which is [length ws]
    characters before the one that follows the "p" of "page". *)
Theorem location_shifted_by_leading_whitespace
    (raw l0 l2 ws a b rest : str) (c : ascii) :
  nonempty_lines raw
  = [l0; ws ++ a ++ lit "page" ++ b ++ c :: "|"%char :: rest; l2] ->
  has_group l0 ->
  Forall (fun x => isspace x = true) ws ->
  isspace (hd "p"%char a) = false -> ~ In "p"%char a ->
  ~ In "|"%char (ws ++ a ++ b ++ [c]) ->
  exists t au d,
    parse_single_highlight raw
    = Some (t, au, l2,
            "P"%char :: skipn (length a + 1) (ws ++ a ++ lit "page" ++ b), d).
Proof.
  intros E Hg Hws Ha Hp Hpipe.
  destruct (line_no_NL _ E) as (Hn0 & _).
  destruct (has_group_found Hn0 Hg) as (m & Em).
  rewrite (parse_three _ E), Em. cbn zeta.
  assert (Hseg :
    hd [] (segments (ws ++ a ++ lit "page" ++ b ++ c :: "|"%char :: rest))
    = ws ++ a ++ lit "page" ++ b ++ [c]).
  { unfold segments. change (lit "|") with ["|"%char].
    replace (ws ++ a ++ lit "page" ++ b ++ c :: "|"%char :: rest)
      with ((ws ++ a ++ lit "page" ++ b ++ [c]) ++ "|"%char :: rest)
      by (now rewrite <- !app_assoc).
    rewrite str_split_char_app; [reflexivity|].
    intros Hin. apply Hpipe.
    apply in_app_or in Hin as [Hin|Hin]; [apply in_or_app; now left|].
    apply in_or_app; right.
    apply in_app_or in Hin as [Hin|Hin]; [apply in_or_app; now left|].
    apply in_app_or in Hin as [Hin|Hin]; [|apply in_or_app; now right].
    simpl in Hin. decompose [or] Hin; discriminate || contradiction. }
  rewrite Hseg, location_of_segment by assumption.
  do 3 eexists. reflexivity.
Qed.

Lemma location_shifted_by_leading_whitespace_witness :
  exists t au d,
    parse_single_highlight
      (of_lines [lit "Book (Ann)";
                 lit " - Your Highlight on page 12 | Added on Monday"; lit "text"])
    = Some (t, au, lit "text", lit "Ppage 12", d).
Proof.
  apply (@location_shifted_by_leading_whitespace _ (lit "Book (Ann)") (lit "text")
           (lit " ") (lit "- Your Highlight on ") (lit " 12")
           (lit " Added on Monday") " "%char).
  - exact indented_meta_chunk_lines.
  - exists (lit "Book "), (lit "Ann"), []. reflexivity.
  - repeat constructor.
  - reflexivity.
  - not_in.
  - not_in.
Defined.

(** X5: when the metadata line ends, after its last pipe, with a label of
    10 characters followed by [d], the timestamp is [d]. *)
Theorem timestamp_after_label (raw l0 l2 x label d : str) :
  nonempty_lines raw = [l0; x ++ "|"%char :: label ++ d; l2] ->
  has_group l0 ->
  ~ In "|"%char (label ++ d) -> length label = 10 ->
  exists t au p, parse_single_highlight raw = Some (t, au, l2, p, d).
Proof.
  intros E Hg Hpipe Hlen.
  destruct (line_no_NL _ E) as (Hn0 & _).
  destruct (has_group_found Hn0 Hg) as (m & Em).
  rewrite (parse_three _ E), Em. cbn zeta.
  destruct (@segments_snoc x (label ++ d) Hpipe) as (l & ->).
  rewrite last_last, skipn_app, skipn_all2 by lia.
  rewrite Hlen, Nat.sub_diag. do 3 eexists. reflexivity.
Qed.

Lemma timestamp_after_label_witness :
  exists t au p,
    parse_single_highlight sample_chunk
    = Some (t, au, lit "This is the highlighted text.", p,
            lit "Monday, May 1, 2023 10:00:00 AM").
Proof.
  apply (@timestamp_after_label sample_chunk (lit "Sample Book (Jane Doe)")
           (lit "This is the highlighted text.")
           (lit "- Your Highlight on page 12 ") (lit " Added on ")
           (lit "Monday, May 1, 2023 10:00:00 AM")).
  - vm_compute. reflexivity.
  - exists (lit "Sample Book "), (lit "Jane Doe"), []. reflexivity.
  - not_in.
  - reflexivity.
Defined.

(** ** Rendering what was parsed *)

Lemma format_highlight_parts
    (self : Formatting) (h : Highlight) (add_date add_page : bool) :
  format_highlight self h add_date add_page
  = (prefix_of self
     ++ map (fun c => if Ascii.eqb c NL then " "%char else c) (content h)
     ++ suffix_of h add_date add_page) ++ [NL].
Proof.
  unfold format_highlight, prefix_of, suffix_of. rewrite str_replace_NL.
  destruct self, add_date, add_page; cbn [andb negb];
    repeat rewrite <- app_assoc; rewrite ?app_nil_l, ?app_nil_r; reflexivity.
Qed.

Lemma map_NL_free (s : str) :
  ~ In NL s -> map (fun c => if Ascii.eqb c NL then " "%char else c) s = s.
Proof.
  induction s as [|c s IH]; intros H; [reflexivity|].
  simpl. destruct (Ascii.eqb_spec c NL) as [->|_].
  - exfalso; apply H; now left.
  - f_equal. apply IH. intros Hin; apply H; now right.
Qed.

Lemma Highlight_init_fields (raw : str) (h : Highlight) :
  Highlight_init raw = Some h ->
  parse_single_highlight raw
  = Some (title h, author h, content h, date h, page h).
Proof.
  unfold Highlight_init.
  destruct (parse_single_highlight raw) as [[[[[f1 f2] f3] f4] f5]|];
    [|discriminate].
  now intros [= <-].
Qed.

Lemma Highlight_init_NL_free (raw : str) (h : Highlight) :
  Highlight_init raw = Some h ->
  ~ In NL (title h) /\ ~ In NL (author h) /\ ~ In NL (content h)
  /\ ~ In NL (date h) /\ ~ In NL (page h).
Proof.
  intros H. apply Highlight_init_fields in H.
  destruct (parse_fields_on_one_line_aux _ H) as (F & _).
  repeat match goal with F : Forall _ (_ :: _) |- _ => inversion_clear F end.
  now repeat split.
Qed.

Lemma not_in_app (c : ascii) (x y : str) :
  ~ In c x -> ~ In c y -> ~ In c (x ++ y).
Proof. intros Hx Hy Hin. apply in_app_or in Hin as [H|H]; contradiction. Qed.

Lemma format_parsed_body (raw : str) (h : Highlight) (self : Formatting)
    (add_date add_page : bool) :
  Highlight_init raw = Some h ->
  format_highlight self h add_date add_page
  = (prefix_of self ++ content h ++ suffix_of h add_date add_page) ++ [NL]
  /\ ~ In NL (prefix_of self ++ content h ++ suffix_of h add_date add_page).
Proof.
  intros H. destruct (Highlight_init_NL_free _ H) as (_ & _ & Hc & Hd & Hp).
  rewrite format_highlight_parts, map_NL_free by exact Hc.
  split; [reflexivity|].
  repeat apply not_in_app; try assumption.
  - destruct self; not_in.
  - unfold suffix_of. destruct add_date, add_page;
      repeat apply not_in_app; try assumption; not_in.
Qed.

(** X6: a highlight that comes from the parser is rendered on exactly one
    line, whatever the style and the flags: the text ends with a newline and
    has no other. *)
Theorem parsed_highlight_renders_one_line (raw : str) (h : Highlight)
    (self : Formatting) (add_date add_page : bool) :
  Highlight_init raw = Some h ->
  exists body,
    format_highlight self h add_date add_page = body ++ [NL] /\ ~ In NL body.
Proof.
  intros H. eexists. apply (@format_parsed_body raw h self add_date add_page H).
Qed.

Lemma parsed_highlight_renders_one_line_witness :
  exists body,
    format_highlight BULLET sample_highlight true true = body ++ [NL]
    /\ ~ In NL body.
Proof.
  apply (@parsed_highlight_renders_one_line sample_chunk).
  vm_compute. reflexivity.
Defined.

(** X7: from the chunk to the rendered line.  With the tuple of
    [parse_single_highlight] being title, author, passage, location and
    timestamp, the line rendered with the date alone ends with "(Added on",
    the LOCATION and ")", and the line rendered with the page alone ends with
    the TIMESTAMP in parentheses: [Highlight] stores the location as its date
    and the timestamp as its page. *)
Theorem rendered_line_of_chunk (raw t a c loc ts : str) (self : Formatting) :
  parse_single_highlight raw = Some (t, a, c, loc, ts) ->
  exists h,
    Highlight_init raw = Some h
    /\ format_highlight self h true false
       = prefix_of self ++ c ++ lit " (Added on " ++ loc ++ lit ")" ++ [NL]
    /\ format_highlight self h false true
       = prefix_of self ++ c ++ lit " (" ++ ts ++ lit ")" ++ [NL]
    /\ format_highlight self h true true
       = prefix_of self ++ c ++ lit " (Added on " ++ loc ++ lit ", " ++ ts
         ++ lit ")" ++ [NL].
Proof.
  intros H. exists (mkHighlight t a c loc ts).
  assert (Hi : Highlight_init raw = Some (mkHighlight t a c loc ts))
    by (unfold Highlight_init; now rewrite H).
  split; [exact Hi|].
  repeat split;
    rewrite (proj1 (@format_parsed_body raw _ self _ _ Hi));
    unfold suffix_of; cbn [content date page];
    now rewrite <- !app_assoc.
Qed.

Lemma rendered_line_of_chunk_witness :
  exists h,
    Highlight_init sample_chunk = Some h
    /\ format_highlight BULLET h true false
       = prefix_of BULLET ++ lit "This is the highlighted text."
         ++ lit " (Added on " ++ lit "Page 12" ++ lit ")" ++ [NL]
    /\ format_highlight BULLET h false true
       = prefix_of BULLET ++ lit "This is the highlighted text."
         ++ lit " (" ++ lit "Monday, May 1, 2023 10:00:00 AM" ++ lit ")" ++ [NL]
    /\ format_highlight BULLET h true true
       = prefix_of BULLET ++ lit "This is the highlighted text."
         ++ lit " (Added on " ++ lit "Page 12" ++ lit ", "
         ++ lit "Monday, May 1, 2023 10:00:00 AM" ++ lit ")" ++ [NL].
Proof.
  apply (@rendered_line_of_chunk sample_chunk (lit "Sample Book ") (lit "Jane Doe")).
  vm_compute. reflexivity.
Defined.

(** ** Further properties of the aggregation *)

Section BooksFacts.

Lemma books_append_perm (books : Books) (k : BookKey) (h : Highlight) :
  Permutation (concat (map snd (books_append books k h)))
    (concat (map snd books) ++ [h]).
Proof.
  induction books as [|[k' hs] rest IH]; [reflexivity|].
  cbn [books_append]. destruct (key_eq_dec k k').
  - cbn [map snd concat]. rewrite <- !app_assoc.
    apply Permutation_app_head, Permutation_app_comm.
  - cbn [map snd concat]. rewrite <- app_assoc.
    now apply Permutation_app_head.
Qed.

Lemma fold_perm (hs : list Highlight) (books : Books) :
  Permutation
    (concat (map snd
       (fold_left (fun books h => books_append books (key h) h) hs books)))
    (concat (map snd books) ++ hs).
Proof.
  revert books; induction hs as [|h hs IH]; intros books; simpl.
  - now rewrite app_nil_r.
  - rewrite IH, books_append_perm. now rewrite <- app_assoc.
Qed.

Lemma grouped_perm (l : list Highlight) :
  Permutation (concat (map snd (grouped l))) l.
Proof.
  pose proof (fold_grouped l []) as E. cbn [app] in E.
  rewrite <- E. apply (fold_perm l []).
Qed.

Lemma grouped_keys (l : list Highlight) :
  map fst (grouped l) = first_seen (map key l).
Proof.
  unfold grouped. rewrite map_map. simpl. apply map_id.
Qed.

Lemma grouped_bucket (l : list Highlight) (k : BookKey) (hs : list Highlight) :
  In (k, hs) (grouped l) ->
  hs = filter (same_key k) l /\ In k (map key l).
Proof.
  unfold grouped. intros H. apply in_map_iff in H as (k' & E & Hk).
  injection E as -> <-. split; [reflexivity|now apply first_seen_In].
Qed.

End BooksFacts.

(** X8: the books hold every valid record of the text exactly once: the
    lists of all the books, put end to end, are a permutation of the valid
    records, and so there are as many stored highlights as valid chunks. *)
Theorem books_hold_valid_records_once (data : str) (books : Books) :
  parse_highlights data = Some books ->
  Permutation (concat (map snd books)) (valid_records data)
  /\ length (concat (map snd books)) = length (valid_records data).
Proof.
  rewrite parse_highlights_grouped. intros [= <-].
  pose proof (grouped_perm (valid_records data)) as P.
  split; [exact P|now apply Permutation_length].
Qed.

Lemma books_hold_valid_records_once_witness :
  Permutation [first_highlight; second_highlight] (valid_records same_book_text)
  /\ 2 = length (valid_records same_book_text).
Proof.
  apply (@books_hold_valid_records_once same_book_text
           [((lit "Jane Doe", lit "Sample Book "),
             [first_highlight; second_highlight])]).
  vm_compute. reflexivity.
Defined.

(** X9: in the books no key occurs twice and no book is empty. *)
Theorem books_keys_distinct_nonempty (data : str) (books : Books) :
  parse_highlights data = Some books ->
  NoDup (map fst books) /\ Forall (fun item => snd item <> []) books.
Proof.
  rewrite parse_highlights_grouped. intros [= <-]. split.
  - rewrite grouped_keys. apply first_seen_NoDup.
  - apply Forall_forall. intros [k hs] Hin.
    apply grouped_bucket in Hin as (-> & Hk). cbn [snd].
    apply in_map_iff in Hk as (h & Ek & Hh).
    assert (In h (filter (same_key k) (valid_records data))) as Hf.
    { apply filter_In. split; [exact Hh|].
      unfold same_key. now destruct (key_eq_dec (key h) k). }
    intros E. rewrite E in Hf. exact Hf.
Qed.

Lemma books_keys_distinct_nonempty_witness :
  NoDup [(lit "A", lit "Book "); (lit "A", lit "Book  ")]
  /\ Forall (fun item : BookKey * list Highlight => snd item <> [])
       [((lit "A", lit "Book "), [spaced_highlight_1]);
        ((lit "A", lit "Book  "), [spaced_highlight_2])].
Proof.
  apply (@books_keys_distinct_nonempty spaced_titles_text
           [((lit "A", lit "Book "), [spaced_highlight_1]);
            ((lit "A", lit "Book  "), [spaced_highlight_2])]).
  vm_compute. reflexivity.
Defined.

(** X10: [parse_highlights] adds to the books the parser already holds: a
    second text parsed by the same parser gives the grouping of the valid
    records of the first text followed by those of the second. *)
Theorem second_parse_accumulates (data1 data2 : str) (books : Books) :
  parse_highlights data1 = Some books ->
  parse_highlights_into books data2
  = Some (grouped (valid_records data1 ++ valid_records data2)).
Proof.
  rewrite parse_highlights_grouped. intros [= <-].
  unfold parse_highlights_into. fold (chunks data2).
  rewrite add_all_fold. f_equal. apply fold_grouped.
Qed.

Lemma second_parse_accumulates_witness :
  parse_highlights_into
    [((lit "Jane Doe", lit "Sample Book "), [first_highlight; second_highlight])]
    spaced_titles_text
  = Some (grouped (valid_records same_book_text ++ valid_records spaced_titles_text)).
Proof.
  apply (@second_parse_accumulates same_book_text).
  vm_compute. reflexivity.
Defined.

Section EntriesFacts.

Lemma HIGHLIGHT_SEPARATOR_nonempty : HIGHLIGHT_SEPARATOR <> [].
Proof. discriminate. Qed.

Lemma startswith_separator_false (x : ascii) (t : str) :
  x <> "="%char -> startswith HIGHLIGHT_SEPARATOR (x :: t) = false.
Proof.
  intros Hx. unfold HIGHLIGHT_SEPARATOR. cbn [startswith lit list_ascii_of_string].
  destruct (Ascii.eqb_spec "=" x) as [<-|_]; [contradiction|reflexivity].
Qed.

Lemma chunks_of_entry (e : str) : ~ In "="%char e -> chunks e = [e].
Proof.
  unfold chunks. induction e as [|x e IH]; intros H; [reflexivity|].
  assert (Hx : x <> "="%char) by (intros ->; apply H; now left).
  destruct (@str_split_miss HIGHLIGHT_SEPARATOR x e
              (startswith_separator_false e Hx))
    as (h & r & Et & ->).
  rewrite IH in Et by (intros Hin; apply H; now right).
  now injection Et as <- <-.
Qed.

Lemma chunks_of_entry_app (e rest : str) :
  ~ In "="%char e ->
  chunks (e ++ HIGHLIGHT_SEPARATOR ++ rest) = e :: chunks rest.
Proof.
  unfold chunks. induction e as [|x e IH]; intros H.
  - apply (str_split_hit HIGHLIGHT_SEPARATOR_nonempty).
  - assert (Hx : x <> "="%char) by (intros ->; apply H; now left).
    change ((x :: e) ++ HIGHLIGHT_SEPARATOR ++ rest)
      with (x :: e ++ HIGHLIGHT_SEPARATOR ++ rest).
    destruct (@str_split_miss HIGHLIGHT_SEPARATOR x
                (e ++ HIGHLIGHT_SEPARATOR ++ rest)
                (startswith_separator_false (e ++ HIGHLIGHT_SEPARATOR ++ rest) Hx))
      as (h & r & Et & ->).
    rewrite IH in Et by (intros Hin; apply H; now right).
    now injection Et as <- <-.
Qed.

Lemma chunks_of_join (es : list str) :
  es <> [] -> Forall (fun e => ~ In "="%char e) es ->
  chunks (str_join HIGHLIGHT_SEPARATOR es) = es.
Proof.
  induction es as [|e r IH]; intros Hne Hall; [contradiction|].
  inversion Hall as [|? ? He Hr]; subst.
  destruct r as [|e' r].
  - now apply chunks_of_entry.
  - change (str_join HIGHLIGHT_SEPARATOR (e :: e' :: r))
      with (e ++ HIGHLIGHT_SEPARATOR ++ str_join HIGHLIGHT_SEPARATOR (e' :: r)).
    rewrite chunks_of_entry_app by exact He.
    f_equal. apply IH; [discriminate|exact Hr].
Qed.

End EntriesFacts.

(** X11: a text made of entries without an equal sign, put together with
    the separator between them, is cut back into exactly these entries, and
    its books are the grouping of the valid records of the entries. *)
Theorem entries_round_trip (es : list str) :
  es <> [] -> Forall (fun e => ~ In "="%char e) es ->
  chunks (str_join HIGHLIGHT_SEPARATOR es) = es
  /\ parse_highlights (str_join HIGHLIGHT_SEPARATOR es)
     = Some (grouped (filter valid (records_of es))).
Proof.
  intros Hne Hall.
  pose proof (chunks_of_join Hne Hall) as E.
  split; [exact E|].
  rewrite parse_highlights_grouped. unfold valid_records. now rewrite E.
Qed.

Lemma entries_round_trip_witness :
  chunks (str_join HIGHLIGHT_SEPARATOR [sample_chunk; location_chunk; [NL]])
  = [sample_chunk; location_chunk; [NL]]
  /\ parse_highlights
       (str_join HIGHLIGHT_SEPARATOR [sample_chunk; location_chunk; [NL]])
     = Some (grouped (filter valid (records_of [sample_chunk; location_chunk; [NL]]))).
Proof.
  apply entries_round_trip.
  - discriminate.
  - repeat constructor; not_in.
Defined.

(** ** Properties of [write_highlights] *)

Section CleanFacts.

Lemma lstrip_In (s : str) (c : ascii) : In c (lstrip s) -> In c s.
Proof.
  induction s as [|x s IH]; simpl; [tauto|].
  destruct (isspace x); [intros H; right; now apply IH|tauto].
Qed.

Lemma lstrip_head (s t : str) (c : ascii) :
  lstrip s = c :: t -> isspace c = false.
Proof.
  induction s as [|x s IH]; simpl; [discriminate|].
  destruct (isspace x) eqn:E; [exact IH|]. now intros [= <- _].
Qed.

Lemma lstrip_idem (s : str) : lstrip (lstrip s) = lstrip s.
Proof.
  induction s as [|x s IH]; simpl; [reflexivity|].
  destruct (isspace x) eqn:E; [exact IH|]. simpl. now rewrite E.
Qed.

Lemma rstrip_In (s : str) (c : ascii) : In c (rstrip s) -> In c s.
Proof.
  unfold rstrip. intros H. apply in_rev in H. apply lstrip_In in H.
  now apply in_rev.
Qed.

Lemma rstrip_last (s x : str) (c : ascii) :
  rstrip s = x ++ [c] -> isspace c = false.
Proof.
  unfold rstrip. intros H. apply (f_equal (@rev ascii)) in H.
  rewrite rev_involutive, rev_app_distr in H. simpl in H.
  now apply lstrip_head in H.
Qed.

Lemma rstrip_idem (s : str) : rstrip (rstrip s) = rstrip s.
Proof. unfold rstrip. now rewrite rev_involutive, lstrip_idem. Qed.

Lemma rstrip_snoc_space (s : str) (c : ascii) :
  isspace c = true -> rstrip (s ++ [c]) = rstrip s.
Proof.
  intros H. unfold rstrip. rewrite rev_app_distr. simpl. now rewrite H.
Qed.

Lemma clean_name_kept (s : str) : Forall (fun c => keeps c = true) (clean_name s).
Proof.
  apply Forall_forall. intros c H. unfold clean_name in H.
  apply rstrip_In in H. now apply filter_In in H.
Qed.

Lemma filter_all (A : Type) (f : A -> bool) (l : list A) :
  Forall (fun x => f x = true) l -> filter f l = l.
Proof.
  induction 1 as [|x l Hx _ IH]; [reflexivity|]. simpl. now rewrite Hx, IH.
Qed.

End CleanFacts.

(** X12: the cleaned title and the cleaned author hold letters, digits and
    spaces only, hence no slash, backslash, dot, underscore or newline; they do
    not end with a space; cleaning a cleaned name changes nothing. *)
Theorem clean_name_safe (s : str) :
  Forall (fun c => keeps c = true) (clean_name s)
  /\ Forall (fun c => ~ In c (lit "/\._") /\ c <> NL) (clean_name s)
  /\ (forall x, clean_name s <> x ++ lit " ")
  /\ clean_name (clean_name s) = clean_name s.
Proof.
  pose proof (clean_name_kept s) as K.
  split; [exact K|]. split; [|split].
  - apply Forall_forall. intros c Hc. rewrite Forall_forall in K.
    specialize (K c Hc). split.
    + intros Hin. cbn in Hin. decompose [or] Hin; subst; try discriminate K.
      contradiction.
    + intros ->. discriminate K.
  - intros x E. unfold clean_name in E. apply rstrip_last in E. discriminate E.
  - unfold clean_name at 1. rewrite (filter_all keeps K).
    unfold clean_name. apply rstrip_idem.
Qed.

(** X13: a character that is not kept, or a space at the end, leaves the
    cleaned name as it is: titles that differ in this way only are written
    to the same path. *)
Theorem clean_name_drops_tail (s : str) (c : ascii) (save_path author : str) :
  keeps c = false \/ c = " "%char ->
  clean_name (s ++ [c]) = clean_name s
  /\ md_path save_path (clean_name author) (clean_name (s ++ [c]))
     = md_path save_path (clean_name author) (clean_name s).
Proof.
  intros H.
  assert (E : clean_name (s ++ [c]) = clean_name s).
  { unfold clean_name. rewrite filter_app. simpl.
    destruct H as [H| ->].
    - rewrite H. now rewrite app_nil_r.
    - change (keeps " ") with true. cbv iota.
      now apply rstrip_snoc_space. }
  split; [exact E|now rewrite E].
Qed.

Lemma clean_name_drops_tail_witness :
  clean_name (lit "Book " ++ [" "%char]) = clean_name (lit "Book ")
  /\ md_path (lit "books/") (clean_name (lit "A"))
       (clean_name (lit "Book " ++ [" "%char]))
     = md_path (lit "books/") (clean_name (lit "A")) (clean_name (lit "Book ")).
Proof.
  apply clean_name_drops_tail. right. reflexivity.
Defined.

Section LineCount.

Lemma count_NL_app (x y : str) : count_NL (x ++ y) = count_NL x + count_NL y.
Proof. unfold count_NL. now rewrite filter_app, length_app. Qed.

Lemma count_NL_free (s : str) : ~ In NL s -> count_NL s = 0.
Proof.
  unfold count_NL. induction s as [|c s IH]; intros H; [reflexivity|].
  cbn [filter]. destruct (Ascii.eqb_spec NL c) as [<-|_].
  - exfalso; apply H; now left.
  - apply IH. intros Hin; apply H; now right.
Qed.

Lemma clean_name_no_NL (s : str) : ~ In NL (clean_name s).
Proof.
  intros Hin. pose proof (clean_name_kept s) as K.
  rewrite Forall_forall in K. specialize (K NL Hin). discriminate K.
Qed.

Lemma records_of_In (l : list str) (h : Highlight) :
  In h (records_of l) -> exists raw, In raw l /\ Highlight_init raw = Some h.
Proof.
  unfold records_of. intros H. apply in_flat_map in H as (raw & Hr & Hh).
  exists raw. split; [exact Hr|].
  destruct (Highlight_init raw) as [h'|]; [|contradiction].
  destruct Hh as [->|[]]. reflexivity.
Qed.

Lemma count_NL_lines (formatting : Formatting) (add_date add_page : bool)
    (hs : list Highlight) :
  Forall (fun h => exists raw, Highlight_init raw = Some h) hs ->
  count_NL (concat (map (fun h => format_highlight formatting h add_date add_page) hs))
  = length hs.
Proof.
  induction 1 as [|h hs (raw & Hh) _ IH]; [reflexivity|].
  cbn [map concat length]. rewrite count_NL_app, IH.
  destruct (@format_parsed_body raw h formatting add_date add_page Hh) as (-> & Hb).
  rewrite count_NL_app, (@count_NL_free _ Hb). reflexivity.
Qed.

End LineCount.

(** X16: the file of a book that comes from [parse_highlights] has four
    lines of heading (title, blank, author, blank) and then one line for
    each highlight of the book. *)
Theorem book_file_has_one_line_per_highlight (data : str) (books : Books)
    (k : BookKey) (hs : list Highlight) (formatting : Formatting)
    (add_date add_page : bool) :
  parse_highlights data = Some books -> In (k, hs) books ->
  count_NL (item_text formatting add_date add_page (k, hs)) = 4 + length hs.
Proof.
  rewrite parse_highlights_grouped. intros [= <-] Hin.
  apply grouped_bucket in Hin as (-> & _).
  unfold item_text, book_text. cbn [fst snd].
  rewrite !count_NL_app, count_NL_lines.
  - rewrite !(@count_NL_free _ (@clean_name_no_NL _)). reflexivity.
  - apply Forall_forall. intros h Hh.
    apply filter_In in Hh as [Hh _]. apply filter_In in Hh as [Hh _].
    apply records_of_In in Hh as (raw & _ & Hr). now exists raw.
Qed.

Lemma book_file_has_one_line_per_highlight_witness :
  count_NL (item_text BULLET true true
              ((lit "Jane Doe", lit "Sample Book "),
               [first_highlight; second_highlight]))
  = 4 + length [first_highlight; second_highlight].
Proof.
  apply (@book_file_has_one_line_per_highlight same_book_text
           [((lit "Jane Doe", lit "Sample Book "),
             [first_highlight; second_highlight])]).
  - vm_compute. reflexivity.
  - left. reflexivity.
Defined.

(** X17: the name of a format given on the command line and the member it
    selects: every member is found again from its own name, and a name that
    selects a member is the name of that member; any other name is
    refused. *)
Theorem Formatting_round_trip :
  (forall f, Formatting_of_value (Formatting_str f) = Some f)
  /\ (forall value f, Formatting_of_value value = Some f -> value = Formatting_str f).
Proof.
  split.
  - intros []; reflexivity.
  - intros value f. unfold Formatting_of_value.
    destruct (str_eq_dec value (lit "bullet")) as [->|_];
      [now intros [= <-]|].
    destruct (str_eq_dec value (lit "quote")) as [->|_];
      [now intros [= <-]|].
    destruct (str_eq_dec value (lit "paragraph")) as [->|_];
      [now intros [= <-]|discriminate].
Qed.

Lemma Formatting_round_trip_witness :
  Formatting_of_value (Formatting_str QUOTE) = Some QUOTE
  /\ lit "quote" = Formatting_str QUOTE.
Proof.
  split.
  - apply (proj1 Formatting_round_trip).
  - apply (proj2 Formatting_round_trip). reflexivity.
Defined.
